(** * BM25Retriever (camel/retrievers/bm25_retriever.py)

    A shallow embedding of the [BM25Retriever] class: its two methods
    [process] and [query], together with models of the library calls they
    make ([str.split], [rank_bm25.BM25Okapi], [numpy.argpartition],
    [list.sort]).

    Numbers: Python floats and numpy [float64] values are idealised as real
    numbers ([R]); Python [int]s are [Z] or [nat].  Python exceptions are
    values of [PyExc]; a method that can raise returns [PyExc + A]. *)

From Stdlib Require Import List String Ascii ZArith Lia Bool Arith DecimalString.
From Stdlib Require Import Permutation Sorted.
From Stdlib Require Import Reals Lra.
Import ListNotations.

Local Open Scope string_scope.

(** ** Python exceptions *)

Inductive PyExc : Type :=
| ValueError (msg : string)
| TypeError (msg : string)
| ZeroDivisionError (msg : string)
| IndexError (msg : string)
| Exception (msg : string).

(** The two messages of [BM25Retriever.query]. *)
Definition top_k_msg : string := "top_k must be a positive integer.".
Definition not_initialized_msg : string :=
  "BM25 model is not initialized. Call `process_and_store` first.".

(** ** [str.split(" ")] *)

(** [s.split(" ")]: cut [s] at every occurrence of the single character
    U+0020.  The result is never empty; two adjacent spaces, or a space at
    either end, give an empty token. *)
Fixpoint split (s : string) : list string :=
  match s with
  | EmptyString => [EmptyString]
  | String c s' =>
      if Ascii.eqb c " "%char then EmptyString :: split s'
      else match split s' with
           | t :: ts => String c t :: ts
           | [] => [String c EmptyString]
           end
  end.

(** [" ".join(l)]. *)
Fixpoint join (l : list string) : string :=
  match l with
  | [] => EmptyString
  | [t] => t
  | t :: ts => t ++ String " "%char (join ts)
  end.

Fixpoint contains_char (c : ascii) (s : string) : bool :=
  match s with
  | EmptyString => false
  | String d s' => Ascii.eqb d c || contains_char c s'
  end.

Fixpoint count_char (c : ascii) (s : string) : nat :=
  match s with
  | EmptyString => 0
  | String d s' => (if Ascii.eqb d c then 1 else 0) + count_char c s'
  end.

(** ** Python dictionaries

    A [dict] keeps its keys in insertion order, which [items()] follows. *)

Definition dict (V : Type) : Type := list (string * V).

Fixpoint dict_get {V} (d : dict V) (k : string) : option V :=
  match d with
  | [] => None
  | (k', v) :: d' => if String.eqb k k' then Some v else dict_get d' k
  end.

(** [d[k] = v]: overwrite in place, or append a new key. *)
Fixpoint dict_set {V} (d : dict V) (k : string) (v : V) : dict V :=
  match d with
  | [] => [(k, v)]
  | (k', v') :: d' =>
      if String.eqb k k' then (k, v) :: d' else (k', v') :: dict_set d' k v
  end.

Definition dict_keys {V} (d : dict V) : list string := map fst d.

(** ** Values stored in a result dictionary *)

(** Values found in [chunk.metadata.to_dict()]. *)
Inductive MetaVal : Type :=
| MetaStr (s : string)
| MetaInt (z : Z)
| MetaList (l : list string).

Inductive PyVal : Type :=
| PyFloat (x : R)
| PyStr (s : string)
| PyDict (d : dict MetaVal).

(** A chunk as produced by the loader: [str(chunk)] and
    [chunk.metadata.to_dict()]. *)
Record Chunk : Type := mkChunk {
  chunk_str : string;
  chunk_metadata : dict MetaVal
}.

(** ** Code that can raise *)

Definition result (A : Type) : Type := (PyExc + A)%type.

Definition raise {A} (e : PyExc) : result A := inl e.
Definition ok {A} (a : A) : result A := inr a.

Definition rbind {A B} (c : result A) (k : A -> result B) : result B :=
  match c with
  | inl e => inl e
  | inr a => k a
  end.

Notation "x <-? c ;; k" := (rbind c (fun x => k))
  (at level 61, c at next level, right associativity).

(** A [for] loop whose body can raise. *)
Fixpoint for_each {A S} (body : S -> A -> result S) (l : list A) (s : S)
  : result S :=
  match l with
  | [] => ok s
  | a :: l' => s' <-? body s a ;; for_each body l' s'
  end.

(** ** [rank_bm25.BM25Okapi]

    The model of the class the retriever delegates to, with the default
    parameters [k1=1.5], [b=0.75], [epsilon=0.25] and no tokenizer, which is
    how [process] constructs it. *)

Module BM25.

Local Open Scope R_scope.

Record BM25Okapi : Type := mkBM25Okapi {
  corpus_size : nat;
  avgdl : R;
  doc_freqs : list (dict nat);
  idf : dict R;
  doc_len : list nat;
  k1 : R;
  b : R;
  epsilon : R;
  average_idf : R
}.

(** [math.log]; it raises on a non-positive argument. *)
Definition math_log (x : R) : result R :=
  if Rlt_dec 0 x then ok (ln x) else raise (ValueError "math domain error").

(** [if word not in frequencies: frequencies[word] = 0]
    [frequencies[word] += 1] *)
Definition count_word (frequencies : dict nat) (word : string) : dict nat :=
  let fr0 := match dict_get frequencies word with
             | None => dict_set frequencies word 0%nat
             | Some _ => frequencies
             end in
  match dict_get fr0 word with
  | Some c => dict_set fr0 word (c + 1)%nat
  | None => fr0
  end.

Definition word_frequencies (document : list string) : dict nat :=
  fold_left count_word document [].

(** [try: nd[word] += 1  except KeyError: nd[word] = 1] *)
Definition count_doc (nd : dict nat) (item : string * nat) : dict nat :=
  match dict_get nd (fst item) with
  | Some c => dict_set nd (fst item) (c + 1)%nat
  | None => dict_set nd (fst item) 1%nat
  end.

(** The loop state of [BM25._initialize]. *)
Record InitState : Type := mkInit {
  i_corpus_size : nat;
  i_doc_len : list nat;
  i_doc_freqs : list (dict nat);
  i_nd : dict nat;
  i_num_doc : nat
}.

Definition init0 : InitState := mkInit 0 [] [] [] 0.

Definition initialize_doc (st : InitState) (document : list string)
  : InitState :=
  let frequencies := word_frequencies document in
  mkInit (i_corpus_size st + 1)%nat
         (i_doc_len st ++ [List.length document])
         (i_doc_freqs st ++ [frequencies])
         (fold_left count_doc frequencies (i_nd st))
         (i_num_doc st + List.length document)%nat.

(** [BM25._initialize]: the final state and [avgdl]; the division raises on
    an empty corpus. *)
Definition _initialize (corpus : list (list string)) : result (InitState * R) :=
  let st := fold_left initialize_doc corpus init0 in
  if Nat.eqb (i_corpus_size st) 0
  then raise (ZeroDivisionError "division by zero")
  else ok (st, INR (i_num_doc st) / INR (i_corpus_size st)).

(** The loop state of [BM25Okapi._calc_idf]. *)
Record IdfState : Type := mkIdf {
  s_idf : dict R;
  s_idf_sum : R;
  s_negative_idfs : list string
}.

Definition calc_idf_word (N : nat) (st : IdfState) (item : string * nat)
  : result IdfState :=
  let (word, freq) := item in
  l1 <-? math_log (IZR (Z.of_nat N - Z.of_nat freq) + 0.5) ;;
  l2 <-? math_log (INR freq + 0.5) ;;
  let idf := l1 - l2 in
  ok (mkIdf (dict_set (s_idf st) word idf)
            (s_idf_sum st + idf)
            (if Rlt_dec idf 0 then s_negative_idfs st ++ [word]
             else s_negative_idfs st)).

(** [BM25Okapi._calc_idf]: the [idf] table and [average_idf].  The
    division can only fail when [nd] is empty, and then [idf_sum] is still
    the integer 0. *)
Definition _calc_idf (N : nat) (eps : R) (nd : dict nat) : result (dict R * R) :=
  st <-? for_each (calc_idf_word N) nd (mkIdf [] 0 []) ;;
  if Nat.eqb (List.length (s_idf st)) 0
  then raise (ZeroDivisionError "division by zero")
  else
    let average := s_idf_sum st / INR (List.length (s_idf st)) in
    ok (fold_left (fun d word => dict_set d word (eps * average))
                  (s_negative_idfs st) (s_idf st),
        average).

(** [BM25Okapi(corpus)]. *)
Definition new (corpus : list (list string)) : result BM25Okapi :=
  ia <-? _initialize corpus ;;
  let (st, avg) := ia in
  ii <-? _calc_idf (i_corpus_size st) 0.25 (i_nd st) ;;
  let (idf, average) := ii in
  ok (mkBM25Okapi (i_corpus_size st) avg (i_doc_freqs st) idf (i_doc_len st)
                  1.5 0.75 0.25 average).

(** [x or 0] on the result of [dict.get]: a missing key and a stored zero
    both give zero. *)
Definition or_zero_nat (o : option nat) : nat :=
  match o with Some c => c | None => 0%nat end.
Definition or_zero (o : option R) : R :=
  match o with Some v => v | None => 0 end.

(** The vector added to [score] for one query term. *)
Definition term_scores (m : BM25Okapi) (q : string) : list R :=
  map (fun dd : dict nat * nat =>
         let q_freq := INR (or_zero_nat (dict_get (fst dd) q)) in
         or_zero (dict_get (idf m) q) *
         (q_freq * (k1 m + 1) /
          (q_freq + k1 m * (1 - b m + b m * INR (snd dd) / avgdl m))))
      (combine (doc_freqs m) (doc_len m)).

Definition vec_add (u v : list R) : list R :=
  map (fun p => fst p + snd p) (combine u v).

(** [BM25Okapi.get_scores]. *)
Definition get_scores (m : BM25Okapi) (query : list string) : list R :=
  fold_left (fun score q => vec_add score (term_scores m q)) query
            (repeat 0 (corpus_size m)).

(** No word is counted in more than [N] documents. *)
Definition nd_bounded (N : nat) (nd : dict nat) : Prop :=
  forall w c, dict_get nd w = Some c -> (c <= N)%nat.

(** The invariant of the loop of [_initialize]. *)
Definition init_inv (st : InitState) : Prop :=
  NoDup (dict_keys (i_nd st)) /\ nd_bounded (i_corpus_size st) (i_nd st).

(** The arrays of an index have one entry per document. *)
Definition well_shaped (m : BM25Okapi) : Prop :=
  List.length (doc_freqs m) = corpus_size m /\
  List.length (doc_len m) = corpus_size m.

End BM25.

(** ** [numpy]

    [np.argpartition(a, kth)] is specified by numpy only up to the order
    inside the two partitions, so the retriever is verified against any
    implementation that meets the documented contract ([Argpartition]).
    [introselect] is the reference selection of numpy 1.x for a small
    [kth]. *)

Module Numpy.

Local Open Scope Z_scope.

Definition string_of_Z (z : Z) : string :=
  DecimalString.NilZero.string_of_int (Z.to_int z).

(** [a[i]] on a one-dimensional array, [i >= 0]. *)
Definition getitem (a : list R) (i : nat) : result R :=
  match nth_error a i with
  | Some x => ok x
  | None =>
      raise (IndexError ("index " ++ string_of_Z (Z.of_nat i)
                         ++ " is out of bounds for axis 0 with size "
                         ++ string_of_Z (Z.of_nat (List.length a))))
  end.

(** [a[start:]]: a negative [start] counts from the end, and both ends are
    clipped to the array. *)
Definition slice_from {A} (start : Z) (a : list A) : list A :=
  let n := Z.of_nat (List.length a) in
  let s := if start <? 0 then Z.max 0 (start + n) else Z.min start n in
  skipn (Z.to_nat s) a.

(** A negative [kth] counts from the end. *)
Definition normalize_kth (kth : Z) (n : nat) : Z :=
  if kth <? 0 then kth + Z.of_nat n else kth.

Definition kth_in_bounds (kth : Z) (n : nat) : bool :=
  (0 <=? normalize_kth kth n) && (normalize_kth kth n <? Z.of_nat n).

Definition kth_msg (kth : Z) (n : nat) : string :=
  "kth(=" ++ string_of_Z (normalize_kth kth n) ++ ") out of bounds ("
  ++ string_of_Z (Z.of_nat n) ++ ")".

(** [p] partitions [a] around position [k]: nothing before [k] is larger
    than the element there, nothing after it is smaller. *)
Definition partitioned (a : list R) (p : list nat) (k : nat) : Prop :=
  forall i, (i < List.length p)%nat ->
    ((i <= k)%nat -> (nth (nth i p O) a 0 <= nth (nth k p O) a 0)%R) /\
    ((k <= i)%nat -> (nth (nth k p O) a 0 <= nth (nth i p O) a 0)%R).

(** [kth] is converted to [intp], a signed 64-bit integer.  A Python
    integer below that range does not convert to an integer array. *)
Definition intp_min : Z := -9223372036854775808.
Definition intp_max : Z := 9223372036854775807.

Definition fits_intp (kth : Z) : bool :=
  (intp_min <=? kth) && (kth <=? intp_max).

Definition partition_index_msg : string := "Partition index must be integer".

(** The behaviour of [np.argpartition] on a one-dimensional array: a [kth]
    below the range of [intp] is a [TypeError]; for a [kth] in that range,
    an empty array is returned as it is and an out-of-range [kth] is a
    [ValueError]; an in-range [kth] gives a permutation of the indices
    partitioned around it.  An array has fewer than [2^63] elements, so an
    in-range [kth] always fits [intp].  Nothing is said of a [kth] above the
    range of [intp]: [query] passes a negative one. *)
Class Argpartition : Type := {
  argpartition : list R -> Z -> result (list nat);
  argpartition_type : forall a kth,
    kth < intp_min -> kth_in_bounds kth (List.length a) = false ->
    argpartition a kth = raise (TypeError partition_index_msg);
  argpartition_empty : forall kth,
    fits_intp kth = true -> argpartition [] kth = ok [];
  argpartition_bounds : forall a kth,
    a <> [] -> kth_in_bounds kth (List.length a) = false ->
    fits_intp kth = true ->
    argpartition a kth = raise (ValueError (kth_msg kth (List.length a)));
  argpartition_ok : forall a kth,
    a <> [] -> kth_in_bounds kth (List.length a) = true ->
    exists p, argpartition a kth = ok p /\
              Permutation p (seq 0 (List.length a)) /\
              partitioned a p (Z.to_nat (normalize_kth kth (List.length a)))
}.

(** *** The reference selection for a small [kth] ([dumb_select]) *)

Fixpoint upd {A} (l : list A) (i : nat) (x : A) : list A :=
  match l, i with
  | [], _ => []
  | _ :: t, O => x :: t
  | h :: t, S i' => h :: upd t i' x
  end.

(** [SWAP(tosort[i], tosort[j])]. *)
Definition swap (tosort : list nat) (i j : nat) : list nat :=
  upd (upd tosort i (nth j tosort O)) j (nth i tosort O).

(** The inner loop: [for k in ks: if v[tosort[k]] < minval: minidx = k]. *)
Fixpoint scan_min (v : list R) (tosort : list nat) (ks : list nat)
         (minidx : nat) (minval : R) : nat :=
  match ks with
  | [] => minidx
  | k :: ks' =>
      let x := nth (nth k tosort O) v 0%R in
      if Rlt_dec x minval then scan_min v tosort ks' k x
      else scan_min v tosort ks' minidx minval
  end.

(** One round of the outer loop: bring the minimum of positions [i..] to
    position [i]. *)
Definition select_round (v : list R) (tosort : list nat) (i : nat)
  : list nat :=
  let num := List.length tosort in
  let minidx := scan_min v tosort (seq (i + 1) (num - (i + 1))) i
                         (nth (nth i tosort O) v 0%R) in
  swap tosort i minidx.

(** [for i in 0..kth]. *)
Definition dumb_select (v : list R) (tosort : list nat) (kth : nat)
  : list nat :=
  fold_left (select_round v) (seq 0 (kth + 1)) tosort.

(** [np.argpartition] through [dumb_select], the path the [introselect] of
    numpy 1.x takes when [kth < 3].  For a larger [kth] numpy partitions
    around pivots instead; selecting round by round meets the same contract
    but may leave equal values in another order, so the runs on concrete
    inputs below all have [kth < 3].  The range check comes first here and
    the conversion to [intp] second, which is numpy's order the other way
    round; on an array of fewer than [2^63] elements the two agree. *)
Definition introselect (a : list R) (kth : Z) : result (list nat) :=
  let n := List.length a in
  if kth_in_bounds kth n
  then ok (dumb_select a (seq 0 n) (Z.to_nat (normalize_kth kth n)))
  else if kth <? intp_min then raise (TypeError partition_index_msg)
  else match a with
       | [] => ok []
       | _ :: _ => raise (ValueError (kth_msg kth n))
       end.

(** The value at position [k] of the index array [p]. *)
Definition val (v : list R) (p : list nat) (k : nat) : R :=
  nth (nth k p O) v 0%R.

(** After [r] rounds of [dumb_select] the first [r] positions hold, in
    order, values that nothing to their right undercuts. *)
Definition rounds_inv (v : list R) (n r : nat) (p : list nat) : Prop :=
  List.length p = n /\
  Permutation p (seq 0 n) /\
  forall a b, (a < r)%nat -> (a <= b)%nat -> (b < n)%nat ->
              (val v p a <= val v p b)%R.

End Numpy.

(** ** [list.sort(key=..., reverse=True)]

    A stable sort into non-increasing key order: records with equal keys
    keep the order they had. *)

Fixpoint insert_desc {A} (key : A -> R) (x : A) (l : list A) : list A :=
  match l with
  | [] => [x]
  | y :: l' =>
      if Rlt_dec (key x) (key y) then y :: insert_desc key x l'
      else x :: l
  end.

Definition sort_reverse {A} (key : A -> R) (l : list A) : list A :=
  fold_right (insert_desc key) [] l.

(** Non-increasing key order. *)
Definition descending {A} (key : A -> R) : list A -> Prop :=
  StronglySorted (fun x y => (key y <= key x)%R).

(** The records of [l] whose key is [s], in the order they have in [l]. *)
Definition with_key {A} (key : A -> R) (s : R) (l : list A) : list A :=
  filter (fun x => if Req_dec_T (key x) s then true else false) l.

(** ** The document loader, [camel.loaders.UnstructuredIO]

    The loader is a collaborator of the retriever; its two methods are taken
    as they are, each either returning or raising. *)

Class UnstructuredIO : Type := {
  Elements : Type;
  Kwargs : Type;
  parse_file_or_url : string -> Kwargs -> result Elements;
  chunk_elements : string -> Elements -> result (list Chunk)
}.

(** ** [BM25Retriever] *)

Record BM25Retriever : Type := mkRetriever {
  bm25 : option BM25.BM25Okapi;
  content_input_path : string;
  chunks : list Chunk
}.

(** [BM25Retriever.__init__] *)
Definition __init__ : BM25Retriever := mkRetriever None "" [].

(** A method that updates [self] and can raise: the attributes assigned
    before the exception stay assigned. *)
Definition Method (A : Type) : Type :=
  BM25Retriever -> BM25Retriever * result A.

Definition mbind {A B} (c : Method A) (k : A -> Method B) : Method B :=
  fun self =>
    match c self with
    | (self', inl e) => (self', inl e)
    | (self', inr a) => k a self'
    end.

Notation "x <- c ;; k" := (mbind c (fun x => k))
  (at level 61, c at next level, right associativity).
Notation "c ;;; k" := (mbind c (fun _ => k))
  (at level 61, right associativity).

(** Evaluate an expression that does not touch [self]. *)
Definition call {A} (c : result A) : Method A := fun self => (self, c).

Definition get_chunks : Method (list Chunk) :=
  fun self => (self, ok (chunks self)).

Definition set_content_input_path (p : string) : Method unit :=
  fun self => (mkRetriever (bm25 self) p (chunks self), ok tt).

Definition set_chunks (cs : list Chunk) : Method unit :=
  fun self => (mkRetriever (bm25 self) (content_input_path self) cs, ok tt).

Definition set_bm25 (m : BM25.BM25Okapi) : Method unit :=
  fun self =>
    (mkRetriever (Some m) (content_input_path self) (chunks self), ok tt).

(** The tokenization of a chunk at line 82 and of the query at line 121. *)
Definition tokenize_chunk (chunk : Chunk) : list string :=
  split (chunk_str chunk).
Definition tokenize_query (query : string) : list string :=
  split query.

(** [l[i]] on a Python list, [i >= 0]. *)
Definition list_getitem {A} (l : list A) (i : nat) : result A :=
  match nth_error l i with
  | Some x => ok x
  | None => raise (IndexError "list index out of range")
  end.

(** The key of the final sort: [x['similarity score']]. *)
Definition similarity_score (x : dict PyVal) : R :=
  match dict_get x "similarity score" with
  | Some (PyFloat s) => s
  | _ => 0%R
  end.

Section Retriever.

Context {io : UnstructuredIO} {np : Numpy.Argpartition}.

(** [BM25Retriever.process] *)
Definition process (content_input_path : string) (chunk_type : string)
           (kwargs : Kwargs) : Method unit :=
  set_content_input_path content_input_path ;;;
  elements <- call (parse_file_or_url content_input_path kwargs) ;;
  cs <- call (chunk_elements chunk_type elements) ;;
  set_chunks cs ;;;
  self_chunks <- get_chunks ;;
  let tokenized_corpus := map tokenize_chunk self_chunks in
  m <- call (BM25.new tokenized_corpus) ;;
  set_bm25 m.

(** The dictionary built for index [i] in the loop of [query]. *)
Definition result_dict (self : BM25Retriever) (scores : list R) (i : nat)
  : result (dict PyVal) :=
  s <-? Numpy.getitem scores i ;;
  c <-? list_getitem (chunks self) i ;;
  ok [("similarity score", PyFloat s);
      ("content path", PyStr (content_input_path self));
      ("metadata", PyDict (chunk_metadata c));
      ("text", PyStr (chunk_str c))].

(** [BM25Retriever.query] *)
Definition query (self : BM25Retriever) (query : string) (top_k : Z)
  : result (list (dict PyVal)) :=
  if (top_k <=? 0)%Z then raise (ValueError top_k_msg)
  else
    match bm25 self with
    | None => raise (ValueError not_initialized_msg)
    | Some m =>
        let processed_query := tokenize_query query in
        let scores := BM25.get_scores m processed_query in
        p <-? Numpy.argpartition scores (- top_k) ;;
        let top_k_indices := Numpy.slice_from (- top_k) p in
        formatted_results <-?
          for_each (fun acc i =>
                      d <-? result_dict self scores i ;; ok (acc ++ [d])%list)
                   top_k_indices [] ;;
        ok (sort_reverse similarity_score formatted_results)
    end.

End Retriever.

(** ** Vocabulary for the results of [query] *)

Definition no_chunk : Chunk := mkChunk EmptyString [].

(** The dictionary [query] builds for chunk index [i]. *)
Definition entry (self : BM25Retriever) (scores : list R) (i : nat)
  : dict PyVal :=
  [("similarity score", PyFloat (nth i scores 0%R));
   ("content path", PyStr (content_input_path self));
   ("metadata", PyDict (chunk_metadata (nth i (chunks self) no_chunk)));
   ("text", PyStr (chunk_str (nth i (chunks self) no_chunk)))].

(** An index that both [scores[i]] and [self.chunks[i]] accept. *)
Definition in_range (self : BM25Retriever) (scores : list R) (i : nat) : Prop :=
  (i < List.length scores)%nat /\ (i < List.length (chunks self))%nat.

(** The indices [query] reports, in the order it reports them. *)
Definition ranked (scores : list R) (top_k : Z) (p : list nat) : list nat :=
  sort_reverse (fun i => nth i scores 0%R) (Numpy.slice_from (- top_k) p).

(** A result dictionary with another ['content path']. *)
Definition with_content_path (path : string) (d : dict PyVal) : dict PyVal :=
  dict_set d "content path" (PyStr path).

(** The outcome of a [query] with the ['content path'] of every result
    replaced. *)
Definition relabel (path : string) (r : result (list (dict PyVal)))
  : result (list (dict PyVal)) :=
  match r with
  | inl e => inl e
  | inr res => inr (map (with_content_path path) res)
  end.

(** [DEFAULT_TOP_K_RESULTS], the value of [top_k] when the caller gives
    none. *)
Definition DEFAULT_TOP_K_RESULTS : Z := 1.

(** ** The states a retriever can be in *)

Section Reachable.

Context {io : UnstructuredIO}.

(** The states reached from [__init__] by calls of [process], whether they
    return or raise; [query] does not change the state. *)
Inductive reachable : BM25Retriever -> Prop :=
| reachable_init : reachable __init__
| reachable_process self path chunk_type kwargs :
    reachable self ->
    reachable (fst (process path chunk_type kwargs self)).

End Reachable.

(** The index, when there is one, was built from a non-empty list of chunks,
    and [chunks] is that list or is empty; without an index there are no
    chunks. *)
Definition consistent (self : BM25Retriever) : Prop :=
  match bm25 self with
  | None => chunks self = []
  | Some m =>
      exists cs, cs <> [] /\
                 BM25.new (map tokenize_chunk cs) = ok m /\
                 (chunks self = cs \/ chunks self = [])
  end.

(** ** Splitting on whitespace, as the specification words it

    The behaviour of [str.split()] without a separator: tokens are the
    maximal runs of non-whitespace characters, so no token is empty and no
    token contains a space, tab or line break.  Used only to compare with
    [split]. *)

Definition is_whitespace (c : ascii) : bool :=
  let n := nat_of_ascii c in
  (Nat.eqb n 32 || (Nat.leb 9 n && Nat.leb n 13))%bool.

Fixpoint whitespace_runs (s : string) : string * list string :=
  match s with
  | EmptyString => (EmptyString, [])
  | String c s' =>
      let (cur, toks) := whitespace_runs s' in
      if is_whitespace c
      then (EmptyString,
            match cur with EmptyString => toks | _ => cur :: toks end)
      else (String c cur, toks)
  end.

Definition split_whitespace (s : string) : list string :=
  let (cur, toks) := whitespace_runs s in
  match cur with EmptyString => toks | _ => cur :: toks end.

Fixpoint has_whitespace (s : string) : bool :=
  match s with
  | EmptyString => false
  | String c s' => is_whitespace c || has_whitespace s'
  end.

(** ** A small file system for the loader

    Three files and their chunks, used to run [process] and [query] on
    concrete inputs: [pets.txt] holds three chunks, [twins.txt] holds two
    chunks of the same length that share the word [cat] and one that does
    not, [empty.txt] holds none, and any other path fails to load. *)

Module Example.

Definition chunk_of (text : string) : Chunk := mkChunk text [].

Definition pets : list Chunk :=
  map chunk_of ["the cat sat"; "the dog ran"; "cats and dogs"].

Definition twins : list Chunk :=
  map chunk_of ["cat nap"; "cat toy"; "dog"].

Definition load_error : PyExc := Exception "Failed to parse the file.".

Definition files (path : string) : result (list Chunk) :=
  if String.eqb path "pets.txt" then ok pets
  else if String.eqb path "twins.txt" then ok twins
  else if String.eqb path "empty.txt" then ok []
  else raise load_error.

#[export] Instance io : UnstructuredIO := {|
  Elements := list Chunk;
  Kwargs := unit;
  parse_file_or_url := fun path _ => files path;
  chunk_elements := fun _ elements => ok elements
|}.

Local Open Scope R_scope.

(** [ln 2.5 - ln 1.5], the idf of a word found in one chunk out of three. *)
Definition idf_one_of_three : R := ln (2 + 0.5) - ln (1 + 0.5).

(** The average of the four idf values of [twins.txt], [cat] first. *)
Definition twins_average_idf : R :=
  (0 + (ln (1 + 0.5) - ln (2 + 0.5)) + idf_one_of_three + idf_one_of_three
   + idf_one_of_three) / INR 4.

(** The index that [BM25Okapi] builds for [twins.txt]. *)
Definition twins_index : BM25.BM25Okapi :=
  BM25.mkBM25Okapi
    3 (INR 5 / INR 3)
    [[("cat", 1); ("nap", 1)]; [("cat", 1); ("toy", 1)]; [("dog", 1)]]%nat
    [("cat", 0.25 * twins_average_idf); ("nap", idf_one_of_three);
     ("toy", idf_one_of_three); ("dog", idf_one_of_three)]
    [2; 2; 1]%nat 1.5 0.75 0.25 twins_average_idf.

(** The score of a chunk of [len] words holding the query word [freq]
    times, for a query word of inverse document frequency [w] in
    [twins.txt]. *)
Definition twins_score (w : R) (freq len : nat) : R :=
  0 + w * (INR freq * (1.5 + 1)
           / (INR freq + 1.5 * (1 - 0.75 + 0.75 * INR len / (INR 5 / INR 3)))).

End Example.

(** * Properties *)

(** ** The tokenizer *)

Lemma split_nonempty (s : string) : split s <> [].
Proof.
  destruct s as [|c s]; simpl; [discriminate|].
  destruct (Ascii.eqb c " "); [discriminate|].
  destruct (split s); discriminate.
Qed.

Lemma join_cons_split (t : string) (s : string) :
  join (t :: split s) = t ++ String " "%char (join (split s)).
Proof.
  simpl. destruct (split s) eqn:E; [|reflexivity].
  now destruct (split_nonempty s).
Qed.

(** Joining the tokens with single spaces gives the text back. *)
Lemma join_split (s : string) : join (split s) = s.
Proof.
  induction s as [|c s IH]; [reflexivity|].
  simpl. destruct (Ascii.eqb c " ") eqn:E.
  - apply Ascii.eqb_eq in E; subst c.
    change (join (EmptyString :: split s) = String " " s).
    rewrite join_cons_split, IH. reflexivity.
  - destruct (split s) as [|t ts] eqn:Es.
    + now destruct (split_nonempty s).
    + destruct ts as [|t' ts]; simpl in *; now rewrite <- IH.
Qed.

(** No token contains a space. *)
Lemma split_no_space (s : string) :
  Forall (fun t => contains_char " " t = false) (split s).
Proof.
  induction s as [|c s IH]; simpl.
  - repeat constructor.
  - destruct (Ascii.eqb c " ") eqn:E.
    + constructor; [reflexivity|exact IH].
    + destruct (split s) as [|t ts].
      * repeat constructor. simpl. now rewrite E.
      * inversion IH; subst. constructor; [|assumption].
        simpl. rewrite E. assumption.
Qed.

(** There is one more token than there are spaces. *)
Lemma length_split (s : string) :
  List.length (split s) = S (count_char " " s).
Proof.
  induction s as [|c s IH]; simpl; [reflexivity|].
  destruct (Ascii.eqb c " "); simpl; [now rewrite IH|].
  destruct (split s) as [|t ts]; simpl in *; lia.
Qed.

(** C8 (as amended): the tokenizer cuts the text at every single space
    character and nowhere else - joining the tokens with one space gives the
    text back, no token contains a space, and there is one more token than
    there are spaces - and the chunk side (line 82) and the query side
    (line 121) apply the same function, so a chunk and a query with the same
    text get the same tokens. *)
Theorem tokenizer_same_on_both_sides (chunk : Chunk) :
  tokenize_chunk chunk = tokenize_query (chunk_str chunk) /\
  join (tokenize_query (chunk_str chunk)) = chunk_str chunk /\
  Forall (fun t => contains_char " " t = false)
         (tokenize_query (chunk_str chunk)) /\
  List.length (tokenize_query (chunk_str chunk))
  = S (count_char " " (chunk_str chunk)).
Proof.
  unfold tokenize_chunk, tokenize_query.
  repeat split.
  - apply join_split.
  - apply split_no_space.
  - apply length_split.
Qed.

(** C8, as stated, fails: a tab is whitespace but does not separate tokens,
    and two adjacent spaces produce an empty token, where splitting on
    whitespace gives two tokens in both cases. *)
Lemma tokenizer_not_whitespace_split :
  let tab := String "a" (String (ascii_of_nat 9) "b") in
  tokenize_query tab = [tab] /\
  has_whitespace tab = true /\
  split_whitespace tab = ["a"; "b"] /\
  tokenize_query "a  b" = ["a"; EmptyString; "b"] /\
  split_whitespace "a  b" = ["a"; "b"].
Proof. repeat split; reflexivity. Qed.

(** ** Errors of [query] *)

Section QueryErrors.

Context {np : Numpy.Argpartition}.

Lemma kth_in_bounds_empty (kth : Z) : Numpy.kth_in_bounds kth 0 = false.
Proof.
  unfold Numpy.kth_in_bounds, Numpy.normalize_kth.
  destruct (Z.ltb_spec kth 0); apply andb_false_iff.
  - left. apply Z.leb_gt. simpl. lia.
  - right. apply Z.ltb_ge. simpl. lia.
Qed.

Lemma argpartition_error (a : list R) (kth : Z) (e : PyExc) :
  (kth < 0)%Z ->
  Numpy.argpartition a kth = inl e ->
  Numpy.kth_in_bounds kth (List.length a) = false /\
  (e = ValueError (Numpy.kth_msg kth (List.length a)) \/
   e = TypeError Numpy.partition_index_msg).
Proof.
  intros Hk H.
  destruct (Numpy.kth_in_bounds kth (List.length a)) eqn:B.
  - destruct a as [|x a]; [now rewrite kth_in_bounds_empty in B|].
    destruct (Numpy.argpartition_ok (x :: a) kth) as (p & Hp & _);
      [discriminate|exact B|]. rewrite Hp in H. discriminate.
  - split; [reflexivity|].
    destruct (Z.lt_ge_cases kth Numpy.intp_min) as [Hlt|Hge].
    + rewrite (Numpy.argpartition_type a kth Hlt B) in H.
      injection H as <-. now right.
    + assert (Hf : Numpy.fits_intp kth = true).
      { unfold Numpy.fits_intp. apply andb_true_iff.
        split; [apply Z.leb_le|apply Z.leb_le; unfold Numpy.intp_max]; lia. }
      destruct a as [|x a].
      * rewrite Numpy.argpartition_empty in H by exact Hf. discriminate.
      * rewrite Numpy.argpartition_bounds in H
          by (discriminate || assumption).
        injection H as <-. now left.
Qed.

Lemma result_loop_error (self : BM25Retriever) (scores : list R)
      (l : list nat) (acc : list (dict PyVal)) (e : PyExc) :
  for_each (fun acc i => d <-? result_dict self scores i ;; ok (acc ++ [d])%list)
           l acc = inl e ->
  exists msg, e = IndexError msg.
Proof.
  revert acc. induction l as [|i l IH]; intros acc H; simpl in H.
  - discriminate.
  - unfold result_dict, Numpy.getitem, list_getitem in H.
    destruct (nth_error scores i); simpl in H.
    + destruct (nth_error (chunks self) i); simpl in H.
      * eapply IH; eassumption.
      * injection H as <-. eauto.
    + injection H as <-. eauto.
Qed.

(** C4: on a retriever on which [process] was never called (the state
    [__init__] leaves), [query] with a positive [top_k] raises the
    model-not-initialized [ValueError] and returns nothing. *)
Theorem query_before_process (q : string) (top_k : Z) :
  (0 < top_k)%Z ->
  query __init__ q top_k = raise (ValueError not_initialized_msg).
Proof.
  intros H. unfold query.
  destruct (Z.leb_spec top_k 0); [lia|reflexivity].
Qed.

(** C5: [query] raises the [ValueError] of the [top_k] check exactly when
    [top_k <= 0], whatever the state of the retriever: the check comes
    first, before the index is looked at or any score is computed. *)
Theorem query_top_k_check (self : BM25Retriever) (q : string) (top_k : Z) :
  query self q top_k = raise (ValueError top_k_msg) <-> (top_k <= 0)%Z.
Proof.
  unfold query. destruct (Z.leb_spec top_k 0) as [Hle|Hgt].
  - split; [intros _; exact Hle|reflexivity].
  - split; [|lia]. intros H. exfalso.
    destruct (bm25 self) as [m|]; [|discriminate].
    destruct (Numpy.argpartition _ _) as [e|p] eqn:Hp; simpl in H.
    + apply argpartition_error in Hp; [|lia].
      destruct Hp as (_ & [->| ->]); discriminate.
    + destruct (for_each _ _ _) as [e|res] eqn:Hl; simpl in H;
        [|discriminate].
      apply result_loop_error in Hl. destruct Hl as [msg ->].
      discriminate.
Qed.

End QueryErrors.

(** ** The final sort *)

Section SortReverse.

Context {A : Type} (key : A -> R).

Lemma insert_desc_perm (x : A) (l : list A) :
  Permutation (insert_desc key x l) (x :: l).
Proof.
  induction l as [|y l IH]; simpl; [reflexivity|].
  destruct (Rlt_dec (key x) (key y)); [|reflexivity].
  rewrite IH. apply perm_swap.
Qed.

Lemma sort_reverse_perm (l : list A) : Permutation (sort_reverse key l) l.
Proof.
  induction l as [|x l IH]; simpl; [reflexivity|].
  rewrite insert_desc_perm. now constructor.
Qed.

Lemma sort_reverse_length (l : list A) :
  List.length (sort_reverse key l) = List.length l.
Proof. apply Permutation_length, sort_reverse_perm. Qed.

Lemma insert_desc_sorted (x : A) (l : list A) :
  descending key l -> descending key (insert_desc key x l).
Proof.
  unfold descending.
  induction l as [|y l IH]; intros Hs; simpl.
  - repeat constructor.
  - inversion Hs as [|? ? Hl Hy]; subst.
    destruct (Rlt_dec (key x) (key y)) as [Hlt|Hge].
    + constructor; [now apply IH|].
      eapply Permutation_Forall;
        [symmetry; apply insert_desc_perm|].
      constructor; [lra|assumption].
    + constructor; [assumption|].
      constructor; [lra|].
      eapply Forall_impl; [|exact Hy]. simpl. intros z Hz. lra.
Qed.

Lemma sort_reverse_sorted (l : list A) :
  descending key (sort_reverse key l).
Proof.
  induction l as [|x l IH]; simpl.
  - constructor.
  - now apply insert_desc_sorted.
Qed.

Lemma insert_desc_with_key (s : R) (x : A) (l : list A) :
  with_key key s (insert_desc key x l) = with_key key s (x :: l).
Proof.
  unfold with_key. induction l as [|y l IH]; simpl; [reflexivity|].
  destruct (Rlt_dec (key x) (key y)) as [Hlt|Hge]; [|reflexivity].
  simpl. rewrite IH. simpl.
  destruct (Req_dec_T (key x) s), (Req_dec_T (key y) s);
    try reflexivity. exfalso. lra.
Qed.

(** The sort is stable: records with the same key keep their order. *)
Lemma sort_reverse_stable (s : R) (l : list A) :
  with_key key s (sort_reverse key l) = with_key key s l.
Proof.
  induction l as [|x l IH]; simpl; [reflexivity|].
  rewrite insert_desc_with_key. unfold with_key in *. simpl.
  now rewrite IH.
Qed.

End SortReverse.

(** Sorting the images is sorting the arguments by the composed key. *)
Lemma sort_reverse_map {A B} (key : B -> R) (f : A -> B) (l : list A) :
  sort_reverse key (map f l) = map f (sort_reverse (fun a => key (f a)) l).
Proof.
  induction l as [|x l IH]; simpl; [reflexivity|].
  rewrite IH. generalize (sort_reverse (fun a => key (f a)) l) as s.
  induction s as [|y s IHs]; simpl; [reflexivity|].
  destruct (Rlt_dec (key (f x)) (key (f y))); simpl; [|reflexivity].
  now rewrite IHs.
Qed.

Lemma descending_map {A B} (key : B -> R) (f : A -> B) (l : list A) :
  descending (fun a => key (f a)) l -> descending key (map f l).
Proof.
  unfold descending. induction 1 as [|x l Hs IH Hx]; simpl; constructor.
  - exact IH.
  - apply Forall_map. exact Hx.
Qed.

(** ** The shape of a successful [query] *)

Lemma similarity_score_entry self scores i :
  similarity_score (entry self scores i) = nth i scores 0%R.
Proof. reflexivity. Qed.

Section QueryShape.

Context {np : Numpy.Argpartition}.

Lemma result_dict_ok self scores i :
  (i < List.length scores)%nat -> (i < List.length (chunks self))%nat ->
  result_dict self scores i = ok (entry self scores i).
Proof.
  intros Hs Hc. unfold result_dict, Numpy.getitem, list_getitem, entry.
  destruct (nth_error scores i) as [s|] eqn:Es;
    [|apply nth_error_None in Es; lia].
  destruct (nth_error (chunks self) i) as [c|] eqn:Ec;
    [|apply nth_error_None in Ec; lia].
  simpl. rewrite (nth_error_nth _ _ _ Es), (nth_error_nth _ _ _ Ec).
  reflexivity.
Qed.

Lemma result_dict_inv self scores i d :
  result_dict self scores i = ok d ->
  d = entry self scores i /\
  (i < List.length scores)%nat /\ (i < List.length (chunks self))%nat.
Proof.
  unfold result_dict, Numpy.getitem, list_getitem, entry.
  destruct (nth_error scores i) as [s|] eqn:Es; simpl; [|discriminate].
  destruct (nth_error (chunks self) i) as [c|] eqn:Ec; simpl; [|discriminate].
  intros H. injection H as <-.
  rewrite (nth_error_nth _ _ _ Es), (nth_error_nth _ _ _ Ec).
  repeat split.
  - apply nth_error_Some. congruence.
  - apply nth_error_Some. congruence.
Qed.

Lemma result_loop_ok self scores l acc :
  Forall (in_range self scores) l ->
  for_each (fun acc i => d <-? result_dict self scores i ;; ok (acc ++ [d])%list)
           l acc
  = ok (acc ++ map (entry self scores) l)%list.
Proof.
  intros H. revert acc. induction H as [|i l [Hs Hc] _ IH]; intros acc; simpl.
  - now rewrite app_nil_r.
  - rewrite (result_dict_ok _ _ _ Hs Hc). simpl. rewrite IH.
    now rewrite <- app_assoc.
Qed.

Lemma result_loop_inv self scores l acc res :
  for_each (fun acc i => d <-? result_dict self scores i ;; ok (acc ++ [d])%list)
           l acc = ok res ->
  res = (acc ++ map (entry self scores) l)%list /\
  Forall (in_range self scores) l.
Proof.
  revert acc. induction l as [|i l IH]; intros acc H; simpl in H.
  - injection H as <-. now rewrite app_nil_r.
  - destruct (result_dict self scores i) as [e|d] eqn:Ed; simpl in H;
      [discriminate|].
    apply result_dict_inv in Ed. destruct Ed as (-> & Hs & Hc).
    apply IH in H. destruct H as [-> Hl]. split.
    + now rewrite <- app_assoc.
    + constructor; [split|]; assumption.
Qed.

Lemma query_ok_inv self q top_k res :
  query self q top_k = ok res ->
  exists m p,
    (0 < top_k)%Z /\ bm25 self = Some m /\
    let scores := BM25.get_scores m (tokenize_query q) in
    Numpy.argpartition scores (- top_k) = ok p /\
    Forall (in_range self scores) (Numpy.slice_from (- top_k) p) /\
    res = map (entry self scores) (ranked scores top_k p).
Proof.
  unfold query. destruct (Z.leb_spec top_k 0) as [|Hk]; [discriminate|].
  destruct (bm25 self) as [m|]; [|discriminate].
  destruct (Numpy.argpartition _ _) as [e|p] eqn:Hp; simpl; [discriminate|].
  destruct (for_each _ _ _) as [e|fr] eqn:Hl; simpl; [discriminate|].
  intros H. injection H as <-.
  apply result_loop_inv in Hl. destruct Hl as [-> Hr]. simpl.
  exists m, p. repeat split; try assumption.
  unfold ranked. rewrite sort_reverse_map. reflexivity.
Qed.

Lemma query_ok self q top_k m p :
  (0 < top_k)%Z -> bm25 self = Some m ->
  let scores := BM25.get_scores m (tokenize_query q) in
  Numpy.argpartition scores (- top_k) = ok p ->
  Forall (in_range self scores) (Numpy.slice_from (- top_k) p) ->
  query self q top_k = ok (map (entry self scores) (ranked scores top_k p)).
Proof.
  intros Hk Hm scores Hp Hr. unfold query.
  destruct (Z.leb_spec top_k 0) as [|_]; [lia|].
  rewrite Hm. fold scores. rewrite Hp. simpl.
  rewrite (result_loop_ok _ _ _ _ Hr). simpl.
  unfold ranked. rewrite sort_reverse_map. reflexivity.
Qed.

End QueryShape.

(** ** Dictionaries *)

Section DictFacts.

Context {V : Type}.
Implicit Types (d : dict V) (k : string) (v : V).

Lemma dict_get_set_eq d k v : dict_get (dict_set d k v) k = Some v.
Proof.
  induction d as [|[k' v'] d IH]; simpl.
  - now rewrite String.eqb_refl.
  - destruct (String.eqb k k') eqn:E; simpl.
    + now rewrite String.eqb_refl.
    + now rewrite E.
Qed.

Lemma dict_get_set_neq d k k' v :
  k' <> k -> dict_get (dict_set d k v) k' = dict_get d k'.
Proof.
  intros Hn. induction d as [|[k0 v0] d IH]; simpl.
  - apply String.eqb_neq in Hn. now rewrite Hn.
  - destruct (String.eqb k k0) eqn:E; simpl.
    + apply String.eqb_eq in E; subst k0.
      apply String.eqb_neq in Hn. now rewrite Hn.
    + now rewrite IH.
Qed.

Lemma dict_get_None d k : dict_get d k = None -> ~ In k (dict_keys d).
Proof.
  induction d as [|[k' v'] d IH]; simpl; [tauto|].
  destruct (String.eqb k k') eqn:E; [discriminate|].
  apply String.eqb_neq in E. intros H [Hk|Hk]; [congruence|now apply IH].
Qed.

Lemma dict_get_In d k v : dict_get d k = Some v -> In k (dict_keys d).
Proof.
  induction d as [|[k' v'] d IH]; simpl; [discriminate|].
  destruct (String.eqb k k') eqn:E.
  - apply String.eqb_eq in E. now left.
  - intros H. right. now apply IH.
Qed.

Lemma dict_keys_set d k v :
  dict_keys (dict_set d k v)
  = match dict_get d k with
    | Some _ => dict_keys d
    | None => (dict_keys d ++ [k])%list
    end.
Proof.
  induction d as [|[k' v'] d IH]; simpl; [reflexivity|].
  destruct (String.eqb k k') eqn:E; simpl.
  - apply String.eqb_eq in E. now subst.
  - rewrite IH. now destruct (dict_get d k).
Qed.

Lemma dict_set_NoDup d k v :
  NoDup (dict_keys d) -> NoDup (dict_keys (dict_set d k v)).
Proof.
  intros H. rewrite dict_keys_set.
  destruct (dict_get d k) eqn:E; [assumption|].
  apply dict_get_None in E.
  apply NoDup_rev in H. rewrite <- (rev_involutive (_ ++ _)).
  apply NoDup_rev. rewrite rev_app_distr. simpl.
  constructor; [|assumption]. now rewrite <- in_rev.
Qed.

Lemma In_dict_get d k v :
  NoDup (dict_keys d) -> In (k, v) d -> dict_get d k = Some v.
Proof.
  induction d as [|[k' v'] d IH]; simpl; [tauto|].
  intros Hnd [H|H].
  - injection H as -> ->. now rewrite String.eqb_refl.
  - inversion Hnd as [|? ? Hni Hnd']; subst.
    destruct (String.eqb k k') eqn:E.
    + apply String.eqb_eq in E; subst k'. exfalso. apply Hni.
      change k with (fst (k, v)). now apply in_map.
    + now apply IH.
Qed.

Lemma dict_set_nonempty d k v : dict_set d k v <> [].
Proof.
  destruct d as [|[k' v'] d]; simpl; [discriminate|].
  destruct (String.eqb k k'); discriminate.
Qed.

End DictFacts.

(** ** Building the index *)

Module BM25Facts.

Import BM25.

Lemma count_word_get_neq fr w w' :
  w' <> w -> dict_get (count_word fr w) w' = dict_get fr w'.
Proof.
  intros Hn. unfold count_word.
  destruct (dict_get fr w) as [c|] eqn:E.
  - rewrite E. now apply dict_get_set_neq.
  - rewrite dict_get_set_eq. now rewrite !dict_get_set_neq.
Qed.

Lemma count_word_NoDup fr w :
  NoDup (dict_keys fr) -> NoDup (dict_keys (count_word fr w)).
Proof.
  intros H. unfold count_word.
  destruct (dict_get fr w) as [c|] eqn:E.
  - rewrite E. now apply dict_set_NoDup.
  - rewrite dict_get_set_eq. now do 2 apply dict_set_NoDup.
Qed.

Lemma count_word_nonempty fr w : count_word fr w <> [].
Proof.
  unfold count_word.
  destruct (dict_get fr w) as [c|] eqn:E.
  - rewrite E. apply dict_set_nonempty.
  - rewrite dict_get_set_eq. apply dict_set_nonempty.
Qed.

Lemma fold_count_word_get document fr q :
  ~ In q document ->
  dict_get (fold_left count_word document fr) q = dict_get fr q.
Proof.
  revert fr. induction document as [|w ws IH]; intros fr Hq; simpl.
  - reflexivity.
  - rewrite IH by (simpl in Hq; tauto).
    apply count_word_get_neq. simpl in Hq. intros ->. tauto.
Qed.

Lemma fold_count_word_NoDup document fr :
  NoDup (dict_keys fr) ->
  NoDup (dict_keys (fold_left count_word document fr)).
Proof.
  revert fr. induction document as [|w ws IH]; intros fr H; simpl.
  - assumption.
  - apply IH. now apply count_word_NoDup.
Qed.

Lemma fold_count_word_nonempty document fr :
  document <> [] \/ fr <> [] -> fold_left count_word document fr <> [].
Proof.
  revert fr. induction document as [|w ws IH]; intros fr H; simpl.
  - destruct H; [congruence|assumption].
  - apply IH. right. apply count_word_nonempty.
Qed.

(** A word that does not occur in a document has no entry in its
    frequency table. *)
Lemma word_frequencies_absent document q :
  ~ In q document -> dict_get (word_frequencies document) q = None.
Proof.
  intros H. unfold word_frequencies. now rewrite fold_count_word_get.
Qed.

Lemma word_frequencies_NoDup document :
  NoDup (dict_keys (word_frequencies document)).
Proof. apply fold_count_word_NoDup. constructor. Qed.

Lemma word_frequencies_nonempty document :
  document <> [] -> word_frequencies document <> [].
Proof. intros H. apply fold_count_word_nonempty. now left. Qed.

Lemma count_doc_get_eq nd item :
  dict_get (count_doc nd item) (fst item)
  = Some (or_zero_nat (dict_get nd (fst item)) + 1)%nat.
Proof.
  unfold count_doc. destruct (dict_get nd (fst item)); simpl;
    now rewrite dict_get_set_eq.
Qed.

Lemma count_doc_get_neq nd item w :
  w <> fst item -> dict_get (count_doc nd item) w = dict_get nd w.
Proof.
  intros H. unfold count_doc.
  destruct (dict_get nd (fst item)); now apply dict_get_set_neq.
Qed.

Lemma count_doc_NoDup nd item :
  NoDup (dict_keys nd) -> NoDup (dict_keys (count_doc nd item)).
Proof.
  intros H. unfold count_doc.
  destruct (dict_get nd (fst item)); now apply dict_set_NoDup.
Qed.

Lemma count_doc_nonempty nd item : count_doc nd item <> [].
Proof.
  unfold count_doc. destruct (dict_get nd (fst item));
    apply dict_set_nonempty.
Qed.

Lemma fold_count_doc_get (items : dict nat) nd w :
  NoDup (dict_keys items) ->
  dict_get (fold_left count_doc items nd) w
  = if in_dec string_dec w (dict_keys items)
    then Some (or_zero_nat (dict_get nd w) + 1)%nat
    else dict_get nd w.
Proof.
  revert nd. induction items as [|item items IH]; intros nd Hnd.
  - reflexivity.
  - inversion Hnd as [|? ? Hni Hnd']; subst.
    change (fold_left count_doc (item :: items) nd)
      with (fold_left count_doc items (count_doc nd item)).
    rewrite (IH _ Hnd').
    destruct (in_dec string_dec w (dict_keys items)) as [Hin|Hout];
      destruct (in_dec string_dec w (dict_keys (item :: items)))
        as [Hin'|Hout'].
    + rewrite count_doc_get_neq; [reflexivity|]. intros ->. contradiction.
    + exfalso. apply Hout'. now right.
    + destruct Hin' as [E|Hin']; [|contradiction].
      rewrite <- E. apply count_doc_get_eq.
    + apply count_doc_get_neq. intros ->. apply Hout'. now left.
Qed.

Lemma fold_count_doc_bounded (items : dict nat) nd N :
  NoDup (dict_keys items) -> nd_bounded N nd ->
  nd_bounded (N + 1) (fold_left count_doc items nd).
Proof.
  intros Hnd Hb w c. rewrite (fold_count_doc_get _ _ _ Hnd).
  destruct (in_dec string_dec w (dict_keys items)).
  - intros H. injection H as <-.
    destruct (dict_get nd w) as [c0|] eqn:E; simpl; [|lia].
    apply Hb in E. lia.
  - intros H. apply Hb in H. lia.
Qed.

Lemma fold_count_doc_NoDup (items : dict nat) nd :
  NoDup (dict_keys nd) -> NoDup (dict_keys (fold_left count_doc items nd)).
Proof.
  revert nd. induction items as [|item items IH]; intros nd H; simpl.
  - assumption.
  - apply IH. now apply count_doc_NoDup.
Qed.

Lemma fold_count_doc_nonempty (items : dict nat) nd :
  items <> [] \/ nd <> [] -> fold_left count_doc items nd <> [].
Proof.
  revert nd. induction items as [|item items IH]; intros nd H; simpl.
  - destruct H; [congruence|assumption].
  - apply IH. right. apply count_doc_nonempty.
Qed.

Lemma initialize_doc_inv st document :
  init_inv st -> init_inv (initialize_doc st document).
Proof.
  intros [Hnd Hb]. split; simpl.
  - now apply fold_count_doc_NoDup.
  - apply fold_count_doc_bounded; [apply word_frequencies_NoDup|assumption].
Qed.

Lemma fold_initialize_inv corpus st :
  init_inv st -> init_inv (fold_left initialize_doc corpus st).
Proof.
  revert st. induction corpus as [|d corpus IH]; intros st H; simpl.
  - assumption.
  - apply IH. now apply initialize_doc_inv.
Qed.

Lemma fold_initialize_shape corpus st :
  let st' := fold_left initialize_doc corpus st in
  i_corpus_size st' = (i_corpus_size st + List.length corpus)%nat /\
  i_doc_len st' = (i_doc_len st ++ map (@List.length string) corpus)%list /\
  i_doc_freqs st' = (i_doc_freqs st ++ map word_frequencies corpus)%list.
Proof.
  revert st. induction corpus as [|d corpus IH]; intros st; simpl.
  - rewrite !app_nil_r. repeat split. lia.
  - destruct (IH (initialize_doc st d)) as (H1 & H2 & H3).
    simpl in *. rewrite H1, H2, H3, <- !app_assoc. repeat split. lia.
Qed.

Lemma fold_initialize_nd_nonempty corpus st :
  Forall (fun d => d <> []) corpus ->
  corpus <> [] \/ i_nd st <> [] ->
  i_nd (fold_left initialize_doc corpus st) <> [].
Proof.
  intros Hall. revert st.
  induction Hall as [|d corpus Hd _ IH]; intros st H; simpl.
  - destruct H; [congruence|assumption].
  - apply IH. right. simpl. apply fold_count_doc_nonempty. left.
    now apply word_frequencies_nonempty.
Qed.

Lemma math_log_pos (x : R) : (0 < x)%R -> math_log x = ok (ln x).
Proof.
  intros H. unfold math_log. destruct (Rlt_dec 0 x); [reflexivity|tauto].
Qed.

Lemma calc_idf_word_ok N st w f :
  (f <= N)%nat ->
  exists st', calc_idf_word N st (w, f) = ok st' /\ s_idf st' <> [].
Proof.
  intros Hf. unfold calc_idf_word.
  rewrite math_log_pos.
  - rewrite math_log_pos.
    + simpl. eexists. split; [reflexivity|]. simpl. apply dict_set_nonempty.
    + pose proof (pos_INR f). lra.
  - assert (0 <= IZR (Z.of_nat N - Z.of_nat f))%R by (apply IZR_le; lia).
    lra.
Qed.

Lemma calc_idf_loop_ok N (items : dict nat) st :
  Forall (fun it => (snd it <= N)%nat) items ->
  exists st', for_each (calc_idf_word N) items st = ok st' /\
              (items <> [] \/ s_idf st <> [] -> s_idf st' <> []).
Proof.
  intros H. revert st. induction H as [|[w f] items Hf _ IH]; intros st.
  - exists st. split; [reflexivity|]. intros [?|?]; congruence.
  - destruct (calc_idf_word_ok N st w f Hf) as (st1 & E1 & Hne).
    destruct (IH st1) as (st' & E' & Hne').
    exists st'. cbn [for_each]. rewrite E1. cbn [rbind]. split; [exact E'|].
    intros _. apply Hne'. now right.
Qed.

Lemma nd_bounded_items N (nd : dict nat) :
  NoDup (dict_keys nd) -> nd_bounded N nd ->
  Forall (fun it => (snd it <= N)%nat) nd.
Proof.
  intros Hnd Hb. apply Forall_forall. intros [w f] Hin. simpl.
  eapply Hb, In_dict_get; eassumption.
Qed.

Lemma _calc_idf_ok N eps (nd : dict nat) :
  NoDup (dict_keys nd) -> nd_bounded N nd -> nd <> [] ->
  exists idf average, _calc_idf N eps nd = ok (idf, average).
Proof.
  intros Hnd Hb Hne. unfold _calc_idf.
  destruct (calc_idf_loop_ok N nd (mkIdf [] 0 []) (nd_bounded_items _ _ Hnd Hb))
    as (st & E & Hst).
  rewrite E. simpl.
  destruct (s_idf st) as [|x l] eqn:Es.
  - exfalso. apply Hst; [now left|reflexivity].
  - simpl. eauto.
Qed.

(** An empty corpus makes the constructor divide by zero. *)
Lemma new_empty : new [] = raise (ZeroDivisionError "division by zero").
Proof. reflexivity. Qed.

(** On a non-empty corpus of non-empty documents the constructor
    succeeds, with one frequency table and one length per document. *)
Lemma new_ok corpus :
  corpus <> [] -> Forall (fun d => d <> []) corpus ->
  exists m, new corpus = ok m /\
            corpus_size m = List.length corpus /\
            doc_freqs m = map word_frequencies corpus /\
            doc_len m = map (@List.length string) corpus.
Proof.
  intros Hne Hall. unfold new, _initialize.
  set (st := fold_left initialize_doc corpus init0).
  destruct (fold_initialize_shape corpus init0) as (Hs & Hl & Hf).
  fold st in Hs, Hl, Hf. simpl in Hs, Hl, Hf.
  assert (Hinv : init_inv st).
  { apply fold_initialize_inv. split; [constructor|]. intros w c. discriminate. }
  destruct Hinv as [Hnd Hb].
  assert (Hnz : i_nd st <> []).
  { apply fold_initialize_nd_nonempty; [assumption|now left]. }
  destruct (Nat.eqb_spec (i_corpus_size st) 0) as [E|_].
  - destruct corpus; [congruence|simpl in Hs; lia].
  - simpl.
    destruct (_calc_idf_ok (i_corpus_size st) 0.25 (i_nd st) Hnd Hb Hnz)
      as (idf & average & E).
    rewrite E. simpl. eexists. split; [reflexivity|]. simpl.
    repeat split; assumption.
Qed.

End BM25Facts.

(** ** Scores *)

Module ScoreFacts.

Import BM25.

Lemma term_scores_length m q :
  well_shaped m -> List.length (term_scores m q) = corpus_size m.
Proof.
  intros [Hf Hl]. unfold term_scores.
  rewrite length_map, length_combine, Hf, Hl. apply Nat.min_id.
Qed.

Lemma vec_add_length u v :
  List.length (vec_add u v) = Nat.min (List.length u) (List.length v).
Proof. unfold vec_add. now rewrite length_map, length_combine. Qed.

Lemma get_scores_length m query :
  well_shaped m -> List.length (get_scores m query) = corpus_size m.
Proof.
  intros Hm. unfold get_scores.
  assert (H : forall score, List.length score = corpus_size m ->
            List.length (fold_left (fun score q => vec_add score (term_scores m q))
                                   query score) = corpus_size m).
  { induction query as [|q query IH]; intros score Hs; simpl.
    - assumption.
    - apply IH. rewrite vec_add_length, Hs, term_scores_length by assumption.
      apply Nat.min_id. }
  apply H. apply repeat_length.
Qed.

Lemma vec_add_zero n : vec_add (repeat 0%R n) (repeat 0%R n) = repeat 0%R n.
Proof.
  unfold vec_add. induction n as [|n IH]; simpl; [reflexivity|].
  rewrite IH. f_equal. lra.
Qed.

(** A term that occurs in no document adds zero to every score. *)
Lemma term_scores_absent m q :
  well_shaped m ->
  Forall (fun doc => dict_get doc q = None) (doc_freqs m) ->
  term_scores m q = repeat 0%R (corpus_size m).
Proof.
  intros [Hf Hl] Hq. unfold term_scores. rewrite <- Hf in *. clear Hf.
  revert Hl. generalize (doc_len m) as dl.
  induction Hq as [|doc docs Hd _ IH]; intros dl Hl.
  - reflexivity.
  - destruct dl as [|l dl]; [discriminate|]. simpl.
    rewrite IH by (simpl in Hl; lia). f_equal.
    rewrite Hd. simpl. unfold Rdiv. ring.
Qed.

Lemma get_scores_absent m query :
  well_shaped m ->
  Forall (fun q => Forall (fun doc => dict_get doc q = None) (doc_freqs m))
         query ->
  get_scores m query = repeat 0%R (corpus_size m).
Proof.
  intros Hm Hq. unfold get_scores.
  induction Hq as [|q query Hd _ IH]; simpl.
  - reflexivity.
  - rewrite (term_scores_absent _ _ Hm Hd), vec_add_zero. exact IH.
Qed.

End ScoreFacts.

(** ** [process] *)

Section ProcessFacts.

Context {io : UnstructuredIO}.

Lemma process_parse_error self path ct kw e :
  parse_file_or_url path kw = inl e ->
  process path ct kw self
  = (mkRetriever (bm25 self) path (chunks self), raise e).
Proof. intros H. unfold process, mbind, call. simpl. now rewrite H. Qed.

Lemma process_chunk_error self path ct kw els e :
  parse_file_or_url path kw = ok els ->
  chunk_elements ct els = inl e ->
  process path ct kw self
  = (mkRetriever (bm25 self) path (chunks self), raise e).
Proof.
  intros H1 H2. unfold process, mbind, call. simpl. rewrite H1. simpl.
  rewrite H2. reflexivity.
Qed.

Lemma process_index_error self path ct kw els cs e :
  parse_file_or_url path kw = ok els ->
  chunk_elements ct els = ok cs ->
  BM25.new (map tokenize_chunk cs) = inl e ->
  process path ct kw self = (mkRetriever (bm25 self) path cs, raise e).
Proof.
  intros H1 H2 H3. unfold process, mbind, call. simpl. rewrite H1. simpl.
  rewrite H2. simpl. rewrite H3. reflexivity.
Qed.

Lemma process_index_ok self path ct kw els cs m :
  parse_file_or_url path kw = ok els ->
  chunk_elements ct els = ok cs ->
  BM25.new (map tokenize_chunk cs) = ok m ->
  process path ct kw self = (mkRetriever (Some m) path cs, ok tt).
Proof.
  intros H1 H2 H3. unfold process, mbind, call. simpl. rewrite H1. simpl.
  rewrite H2. simpl. rewrite H3. reflexivity.
Qed.

(** Whatever happens afterwards, [process] has stored its argument. *)
Lemma process_content_input_path self path ct kw :
  content_input_path (fst (process path ct kw self)) = path.
Proof.
  destruct (parse_file_or_url path kw) as [e|els] eqn:H1.
  - now rewrite (process_parse_error _ _ _ _ _ H1).
  - destruct (chunk_elements ct els) as [e|cs] eqn:H2.
    + now rewrite (process_chunk_error _ _ _ _ _ _ H1 H2).
    + destruct (BM25.new (map tokenize_chunk cs)) as [e|m] eqn:H3.
      * now rewrite (process_index_error _ _ _ _ _ _ _ H1 H2 H3).
      * now rewrite (process_index_ok _ _ _ _ _ _ _ H1 H2 H3).
Qed.

(** Loading a non-empty list of chunks always builds an index, with one
    score per chunk. *)
Lemma process_loaded self path ct kw els cs :
  parse_file_or_url path kw = ok els ->
  chunk_elements ct els = ok cs ->
  cs <> [] ->
  exists m,
    process path ct kw self = (mkRetriever (Some m) path cs, ok tt) /\
    BM25.new (map tokenize_chunk cs) = ok m /\
    BM25.corpus_size m = List.length cs /\
    BM25.well_shaped m /\
    BM25.doc_freqs m = map BM25.word_frequencies (map tokenize_chunk cs).
Proof.
  intros H1 H2 Hne.
  destruct (BM25Facts.new_ok (map tokenize_chunk cs)) as (m & Hm & Hs & Hf & Hl).
  - destruct cs; [congruence|discriminate].
  - apply Forall_map, Forall_forall. intros c _. apply split_nonempty.
  - exists m. rewrite length_map in Hs. repeat split; try assumption.
    + now apply (process_index_ok _ _ _ _ els).
    + now rewrite Hf, !length_map.
    + now rewrite Hl, !length_map.
Qed.

End ProcessFacts.

(** ** Selecting the [top_k] highest scores *)

Section Selection.

Context {np : Numpy.Argpartition}.

Lemma kth_in_bounds_top_k (n : nat) (top_k : Z) :
  (1 <= top_k <= Z.of_nat n)%Z ->
  Numpy.kth_in_bounds (- top_k) n = true /\
  Numpy.normalize_kth (- top_k) n = (Z.of_nat n - top_k)%Z.
Proof.
  intros H. unfold Numpy.kth_in_bounds, Numpy.normalize_kth.
  destruct (Z.ltb_spec (- top_k) 0); [|lia]. split; [|lia].
  apply andb_true_iff. split; [apply Z.leb_le|apply Z.ltb_lt]; lia.
Qed.

Lemma kth_out_of_bounds_top_k (n : nat) (top_k : Z) :
  (Z.of_nat n < top_k)%Z ->
  Numpy.kth_in_bounds (- top_k) n = false /\
  Numpy.normalize_kth (- top_k) n = (Z.of_nat n - top_k)%Z.
Proof.
  intros H. unfold Numpy.kth_in_bounds, Numpy.normalize_kth.
  destruct (Z.ltb_spec (- top_k) 0); [|lia]. split; [|lia].
  apply andb_false_iff. left. apply Z.leb_gt. lia.
Qed.

(** More results asked for than there are scores: [kth = -top_k] is out of
    bounds, or does not even fit [intp]. *)
Lemma argpartition_exceeds (scores : list R) (top_k : Z) :
  scores <> [] ->
  (Z.of_nat (List.length scores) < top_k)%Z ->
  Numpy.argpartition scores (- top_k)
  = raise (if Numpy.fits_intp (- top_k)
           then ValueError (Numpy.kth_msg (- top_k) (List.length scores))
           else TypeError Numpy.partition_index_msg).
Proof.
  intros Hne Hk.
  destruct (kth_out_of_bounds_top_k _ _ Hk) as [Hb _].
  destruct (Numpy.fits_intp (- top_k)) eqn:Hf.
  - now apply Numpy.argpartition_bounds.
  - apply Numpy.argpartition_type; [|exact Hb].
    unfold Numpy.fits_intp in Hf. apply andb_false_iff in Hf.
    destruct Hf as [Hf|Hf]; [now apply Z.leb_gt in Hf|].
    apply Z.leb_gt in Hf. unfold Numpy.intp_max in Hf. lia.
Qed.

Lemma slice_from_top_k {A} (p : list A) (top_k : Z) :
  (1 <= top_k <= Z.of_nat (List.length p))%Z ->
  Numpy.slice_from (- top_k) p
  = skipn (List.length p - Z.to_nat top_k) p.
Proof.
  intros H. unfold Numpy.slice_from.
  destruct (Z.ltb_spec (- top_k) 0); [|lia]. f_equal. lia.
Qed.

(** What [np.argpartition(scores, -top_k)[-top_k:]] selects when
    [1 <= top_k <= len(scores)]: [top_k] distinct indices, none of which
    scores less than an index left out. *)
Lemma select_top_k (scores : list R) (top_k : Z) :
  (1 <= top_k <= Z.of_nat (List.length scores))%Z ->
  exists p,
    Numpy.argpartition scores (- top_k) = ok p /\
    let idx := Numpy.slice_from (- top_k) p in
    List.length idx = Z.to_nat top_k /\
    NoDup idx /\
    Forall (fun i => (i < List.length scores)%nat) idx /\
    (forall i j, In i idx -> (j < List.length scores)%nat -> ~ In j idx ->
                 (nth j scores 0 <= nth i scores 0)%R).
Proof.
  intros Hk. set (n := List.length scores) in *.
  destruct (kth_in_bounds_top_k n top_k Hk) as [Hb Hn].
  destruct (Numpy.argpartition_ok scores (- top_k)) as (p & Hp & Hperm & Hpart).
  { destruct scores; [simpl in n; lia|discriminate]. }
  { exact Hb. }
  fold n in Hperm, Hpart. rewrite Hn in Hpart.
  assert (Hlen : List.length p = n).
  { rewrite (Permutation_length Hperm). apply length_seq. }
  exists p. split; [exact Hp|]. simpl.
  rewrite slice_from_top_k by (rewrite Hlen; exact Hk). rewrite Hlen.
  set (k := (n - Z.to_nat top_k)%nat).
  replace (Z.to_nat (Z.of_nat n - top_k)) with k in Hpart by lia.
  assert (Hnd : NoDup p).
  { eapply Permutation_NoDup; [symmetry; exact Hperm|apply seq_NoDup]. }
  assert (Hin : forall i, In i p <-> (i < n)%nat).
  { intros i. rewrite (Permutation_in' eq_refl Hperm), in_seq. lia. }
  repeat split.
  - rewrite length_skipn, Hlen. lia.
  - rewrite <- (firstn_skipn k p) in Hnd. now apply NoDup_app_remove_l in Hnd.
  - apply Forall_forall. intros i Hi. apply Hin.
    rewrite <- (firstn_skipn k p). apply in_or_app. now right.
  - intros i j Hi Hj Hnj.
    apply (In_nth _ _ O) in Hi. destruct Hi as (a & Ha & Ea).
    rewrite length_skipn, Hlen in Ha. rewrite nth_skipn in Ea.
    assert (Hjp : In j (firstn k p)).
    { apply Hin in Hj. rewrite <- (firstn_skipn k p) in Hj.
      apply in_app_or in Hj. tauto. }
    apply (In_nth _ _ O) in Hjp. destruct Hjp as (c & Hc & Ec).
    rewrite length_firstn, Hlen in Hc. rewrite nth_firstn in Ec.
    destruct (Nat.ltb_spec c k); [|lia].
    destruct (Hpart c) as [Hlow _]; [lia|].
    destruct (Hpart (k + a)%nat) as [_ Hhigh]; [lia|].
    rewrite Ec in Hlow. rewrite Ea in Hhigh.
    specialize (Hlow ltac:(lia)). specialize (Hhigh ltac:(lia)). lra.
Qed.

End Selection.

(** ** [query] after [process] *)

Section Claims.

Context {io : UnstructuredIO} {np : Numpy.Argpartition}.

(** The common part of the results below: on an index built from a
    non-empty list of chunks, a [top_k] between 1 and the number of chunks
    selects and reports [top_k] indices. *)
Lemma query_after_process self0 path ct kw els cs q top_k :
  parse_file_or_url path kw = ok els ->
  chunk_elements ct els = ok cs ->
  cs <> [] ->
  (1 <= top_k <= Z.of_nat (List.length cs))%Z ->
  exists m idx,
    fst (process path ct kw self0) = mkRetriever (Some m) path cs /\
    BM25.well_shaped m /\
    BM25.corpus_size m = List.length cs /\
    BM25.doc_freqs m = map BM25.word_frequencies (map tokenize_chunk cs) /\
    let self := mkRetriever (Some m) path cs in
    let scores := BM25.get_scores m (tokenize_query q) in
    query self q top_k = ok (map (entry self scores) idx) /\
    List.length idx = Z.to_nat top_k /\
    NoDup idx /\
    Forall (fun i => (i < List.length cs)%nat) idx /\
    descending (fun i => nth i scores 0%R) idx /\
    (forall i j, In i idx -> (j < List.length cs)%nat -> ~ In j idx ->
                 (nth j scores 0 <= nth i scores 0)%R).
Proof.
  intros H1 H2 Hne Hk.
  destruct (process_loaded self0 path ct kw els cs H1 H2 Hne)
    as (m & Hp & _ & Hs & Hw & Hf).
  set (scores := BM25.get_scores m (tokenize_query q)).
  assert (Hlen : List.length scores = List.length cs).
  { unfold scores. now rewrite ScoreFacts.get_scores_length. }
  destruct (select_top_k scores top_k) as (p & Hap & Hl & Hnd & Hr & Htop).
  { now rewrite Hlen. }
  rewrite Hlen in Hr, Htop.
  assert (Hperm : Permutation (ranked scores top_k p)
                              (Numpy.slice_from (- top_k) p))
    by apply sort_reverse_perm.
  exists m, (ranked scores top_k p). rewrite Hp. simpl.
  split; [reflexivity|]. do 3 (split; [assumption|]).
  split; [|repeat split].
  - apply (query_ok (mkRetriever (Some m) path cs) q top_k m p);
      [lia|reflexivity|exact Hap|].
    fold scores. eapply Forall_impl; [|exact Hr].
    intros i Hi. split; [now rewrite Hlen|assumption].
  - now rewrite (Permutation_length Hperm).
  - eapply Permutation_NoDup; [symmetry; exact Hperm|assumption].
  - eapply Permutation_Forall; [symmetry; exact Hperm|assumption].
  - apply sort_reverse_sorted.
  - intros i j Hi Hj Hnj. apply Htop; try assumption.
    + now apply (Permutation_in _ Hperm).
    + intros Hin. apply Hnj.
      now apply (Permutation_in _ (Permutation_sym Hperm)).
Qed.

(** As [query_after_process], with the output of [np.argpartition] that the
    results are taken from. *)
Lemma query_ranked_after_process self0 path ct kw els cs q top_k :
  parse_file_or_url path kw = ok els ->
  chunk_elements ct els = ok cs ->
  cs <> [] ->
  (1 <= top_k <= Z.of_nat (List.length cs))%Z ->
  exists m p,
    fst (process path ct kw self0) = mkRetriever (Some m) path cs /\
    let self := mkRetriever (Some m) path cs in
    let scores := BM25.get_scores m (tokenize_query q) in
    Numpy.argpartition scores (- top_k) = ok p /\
    query self q top_k = ok (map (entry self scores) (ranked scores top_k p)) /\
    List.length (Numpy.slice_from (- top_k) p) = Z.to_nat top_k /\
    NoDup (Numpy.slice_from (- top_k) p) /\
    Forall (fun i => (i < List.length cs)%nat) (Numpy.slice_from (- top_k) p) /\
    (forall i j, In i (Numpy.slice_from (- top_k) p) ->
                 (j < List.length cs)%nat ->
                 ~ In j (Numpy.slice_from (- top_k) p) ->
                 (nth j scores 0 <= nth i scores 0)%R).
Proof.
  intros H1 H2 Hne Hk.
  destruct (process_loaded self0 path ct kw els cs H1 H2 Hne)
    as (m & Hp & _ & Hs & Hw & Hf).
  set (scores := BM25.get_scores m (tokenize_query q)).
  assert (Hlen : List.length scores = List.length cs).
  { unfold scores. now rewrite ScoreFacts.get_scores_length. }
  destruct (select_top_k scores top_k) as (p & Hap & Hl & Hnd & Hr & Htop).
  { now rewrite Hlen. }
  rewrite Hlen in Hr, Htop.
  exists m, p. rewrite Hp. simpl.
  split; [reflexivity|]. split; [exact Hap|].
  split; [|repeat split; assumption].
  apply (query_ok (mkRetriever (Some m) path cs) q top_k m p);
    [lia|reflexivity|exact Hap|].
  fold scores. eapply Forall_impl; [|exact Hr].
  intros i Hi. split; [now rewrite Hlen|assumption].
Qed.

(** C1 (as amended): after [process] has loaded a non-empty list of chunks,
    [query] with [1 <= top_k <= len(chunks)] returns exactly [top_k]
    results (so at most [top_k]); they are the dictionaries of pairwise
    distinct chunk indices, in non-increasing order of score, and no chunk
    left out scores more than a chunk returned.  Results with equal scores
    are in the order in which [np.argpartition(scores, -top_k)[-top_k:]]
    holds them: for every score, the returned indices with that score are
    those of the slice, in the order of the slice. *)
Theorem query_top_k_sorted self0 path ct kw els cs q top_k :
  parse_file_or_url path kw = ok els ->
  chunk_elements ct els = ok cs ->
  cs <> [] ->
  (1 <= top_k <= Z.of_nat (List.length cs))%Z ->
  let self := fst (process path ct kw self0) in
  exists m idx p,
    bm25 self = Some m /\ chunks self = cs /\
    let scores := BM25.get_scores m (tokenize_query q) in
    query self q top_k = ok (map (entry self scores) idx) /\
    List.length (map (entry self scores) idx) = Z.to_nat top_k /\
    NoDup idx /\
    Forall (fun i => (i < List.length cs)%nat) idx /\
    descending similarity_score (map (entry self scores) idx) /\
    (forall i j, In i idx -> (j < List.length cs)%nat -> ~ In j idx ->
                 (nth j scores 0 <= nth i scores 0)%R) /\
    Numpy.argpartition scores (- top_k) = ok p /\
    (forall s, with_key (fun i => nth i scores 0%R) s idx
               = with_key (fun i => nth i scores 0%R) s
                          (Numpy.slice_from (- top_k) p)).
Proof.
  intros H1 H2 Hne Hk.
  destruct (query_ranked_after_process self0 path ct kw els cs q top_k
              H1 H2 Hne Hk)
    as (m & p & -> & Hap & Hq & Hl & Hnd & Hr & Htop).
  set (scores := BM25.get_scores m (tokenize_query q)) in *.
  assert (Hperm : Permutation (ranked scores top_k p)
                              (Numpy.slice_from (- top_k) p))
    by apply sort_reverse_perm.
  exists m, (ranked scores top_k p), p. simpl.
  split; [reflexivity|]. split; [reflexivity|]. split; [exact Hq|].
  split; [now rewrite length_map, (Permutation_length Hperm)|].
  split; [eapply Permutation_NoDup; [symmetry; exact Hperm|assumption]|].
  split; [eapply Permutation_Forall; [symmetry; exact Hperm|assumption]|].
  split; [apply descending_map, sort_reverse_sorted|].
  split; [|split; [exact Hap|intros s; apply sort_reverse_stable]].
  intros i j Hi Hj Hnj. apply Htop; try assumption.
  - now apply (Permutation_in _ Hperm).
  - intros Hin. apply Hnj.
    now apply (Permutation_in _ (Permutation_sym Hperm)).
Qed.

(** With more results asked for than there are chunks, [kth = -top_k] is
    out of bounds for [np.argpartition], or below the range of [intp]. *)
Lemma query_kth_out_of_bounds self0 path ct kw els cs q top_k :
  parse_file_or_url path kw = ok els ->
  chunk_elements ct els = ok cs ->
  cs <> [] ->
  (Z.of_nat (List.length cs) < top_k)%Z ->
  query (fst (process path ct kw self0)) q top_k
  = raise (if Numpy.fits_intp (- top_k)
           then ValueError (Numpy.kth_msg (- top_k) (List.length cs))
           else TypeError Numpy.partition_index_msg).
Proof.
  intros H1 H2 Hne Hk.
  destruct (process_loaded self0 path ct kw els cs H1 H2 Hne)
    as (m & Hp & _ & Hs & Hw & _).
  rewrite Hp. simpl. unfold query.
  destruct (Z.leb_spec top_k 0) as [|_]; [lia|]. simpl.
  set (scores := BM25.get_scores m (tokenize_query q)).
  assert (Hlen : List.length scores = List.length cs).
  { unfold scores. now rewrite ScoreFacts.get_scores_length. }
  rewrite argpartition_exceeds.
  - now rewrite Hlen.
  - destruct scores; [|discriminate]. destruct cs; [congruence|discriminate].
  - now rewrite Hlen.
Qed.

(** C2 (what the code does): when [top_k] is larger than the number of
    chunks, [query] does not return all the documents but raises: for
    [top_k <= 2^63] the [ValueError] with which [np.argpartition] rejects
    the out-of-bounds [kth = -top_k], and beyond that the [TypeError] with
    which it rejects a [kth] that is no [intp]. *)
Theorem query_top_k_exceeds_corpus self0 path ct kw els cs q top_k :
  parse_file_or_url path kw = ok els ->
  chunk_elements ct els = ok cs ->
  cs <> [] ->
  (Z.of_nat (List.length cs) < top_k)%Z ->
  query (fst (process path ct kw self0)) q top_k
  = raise (if Numpy.fits_intp (- top_k)
           then ValueError (Numpy.kth_msg (- top_k) (List.length cs))
           else TypeError Numpy.partition_index_msg).
Proof. apply query_kth_out_of_bounds. Qed.

(** C3 (what the code does): when the loader returns no chunk, the
    constructor of the index divides by zero; [process] raises
    [ZeroDivisionError] having stored the path and the empty chunk list but
    no index, and on a fresh retriever the next [query] raises the
    model-not-initialized [ValueError] instead of returning an empty
    list. *)
Theorem process_empty_corpus self0 path ct kw els q :
  parse_file_or_url path kw = ok els ->
  chunk_elements ct els = ok [] ->
  process path ct kw self0
  = (mkRetriever (bm25 self0) path [],
     raise (ZeroDivisionError "division by zero")) /\
  query (fst (process path ct kw __init__)) q 1
  = raise (ValueError not_initialized_msg).
Proof.
  intros H1 H2.
  assert (H : forall s, process path ct kw s
              = (mkRetriever (bm25 s) path [],
                 raise (ZeroDivisionError "division by zero"))).
  { intros s. apply (process_index_error _ _ _ _ els); try assumption.
    apply BM25Facts.new_empty. }
  split; [apply H|]. rewrite H. reflexivity.
Qed.

(** A query none of whose tokens occurs in any chunk scores every chunk 0
    and, for [1 <= top_k <= len(chunks)], is answered with [top_k] of
    them. *)
Lemma query_all_zero self0 path ct kw els cs q top_k :
  parse_file_or_url path kw = ok els ->
  chunk_elements ct els = ok cs ->
  cs <> [] ->
  (forall t c, In t (tokenize_query q) -> In c cs ->
               ~ In t (tokenize_chunk c)) ->
  (1 <= top_k <= Z.of_nat (List.length cs))%Z ->
  let self := fst (process path ct kw self0) in
  exists res idx,
    query self q top_k = ok res /\
    res <> [] /\
    List.length res = Z.to_nat top_k /\
    Forall (fun d => dict_get d "similarity score" = Some (PyFloat 0)) res /\
    NoDup idx /\
    res = map (fun i => entry self (repeat 0%R (List.length cs)) i) idx.
Proof.
  intros H1 H2 Hne Hno Hk.
  destruct (query_after_process self0 path ct kw els cs q top_k H1 H2 Hne Hk)
    as (m & idx & -> & Hw & Hs & Hf & Hq & Hl & Hnd & Hr & _ & _).
  simpl in *.
  assert (Hz : BM25.get_scores m (tokenize_query q)
               = repeat 0%R (List.length cs)).
  { rewrite <- Hs. apply ScoreFacts.get_scores_absent; [assumption|].
    apply Forall_forall. intros t Ht. rewrite Hf.
    apply Forall_map, Forall_map, Forall_forall. intros c Hc.
    apply BM25Facts.word_frequencies_absent. now apply Hno. }
  rewrite Hz in Hq.
  exists (map (entry (mkRetriever (Some m) path cs)
                     (repeat 0%R (List.length cs))) idx), idx.
  repeat split; try assumption.
  - destruct idx; [simpl in Hl; lia|discriminate].
  - now rewrite length_map.
  - apply Forall_map, Forall_forall. intros i _. simpl.
    now rewrite nth_repeat.
Qed.

(** C6 (what the code does): after [process] has loaded a non-empty list
    of chunks, a query none of whose tokens occurs in any chunk is answered,
    for [1 <= top_k <= len(chunks)], with [top_k] results of pairwise
    distinct chunks, each with score 0; chunks without a matching term are
    not filtered out.  For [top_k > len(chunks)] it is not answered with all
    the chunks: [query] raises the [ValueError] of [np.argpartition] for an
    out-of-bounds [kth], or its [TypeError] when [top_k > 2^63]. *)
Theorem query_no_matching_term self0 path ct kw els cs q top_k :
  parse_file_or_url path kw = ok els ->
  chunk_elements ct els = ok cs ->
  cs <> [] ->
  (forall t c, In t (tokenize_query q) -> In c cs ->
               ~ In t (tokenize_chunk c)) ->
  let self := fst (process path ct kw self0) in
  ((1 <= top_k <= Z.of_nat (List.length cs))%Z ->
   exists res idx,
     query self q top_k = ok res /\
     res <> [] /\
     List.length res = Z.to_nat top_k /\
     Forall (fun d => dict_get d "similarity score" = Some (PyFloat 0)) res /\
     NoDup idx /\
     res = map (fun i => entry self (repeat 0%R (List.length cs)) i) idx) /\
  ((Z.of_nat (List.length cs) < top_k)%Z ->
   query self q top_k
   = raise (if Numpy.fits_intp (- top_k)
            then ValueError (Numpy.kth_msg (- top_k) (List.length cs))
            else TypeError Numpy.partition_index_msg)).
Proof.
  intros H1 H2 Hne Hno. split; intros Hk.
  - now apply (query_all_zero self0 path ct kw els).
  - now apply (query_kth_out_of_bounds self0 path ct kw els).
Qed.

(** C7 (as amended): when the loader raises inside a later [process], the
    error reaches the caller and the index and the chunks are those of
    before the call, but [content_input_path] is already the new path. *)
Theorem process_loader_failure self path ct kw e :
  parse_file_or_url path kw = inl e \/
  (exists els, parse_file_or_url path kw = ok els /\
               chunk_elements ct els = inl e) ->
  snd (process path ct kw self) = raise e /\
  bm25 (fst (process path ct kw self)) = bm25 self /\
  chunks (fst (process path ct kw self)) = chunks self /\
  content_input_path (fst (process path ct kw self)) = path.
Proof.
  intros [H|(els & H1 & H2)].
  - rewrite (process_parse_error _ _ _ _ _ H). now repeat split.
  - rewrite (process_chunk_error _ _ _ _ _ _ H1 H2). now repeat split.
Qed.

(** C9: a second [process] with the same arguments leaves the retriever as
    the first one left it, so every query gets the same scores and the same
    answer after two calls as after one. *)
Theorem process_idempotent self path ct kw :
  let once := fst (process path ct kw self) in
  let twice := fst (process path ct kw once) in
  twice = once /\
  snd (process path ct kw once) = snd (process path ct kw self) /\
  (forall q,
     option_map (fun m => BM25.get_scores m (tokenize_query q)) (bm25 twice)
     = option_map (fun m => BM25.get_scores m (tokenize_query q)) (bm25 once)) /\
  (forall q top_k, query twice q top_k = query once q top_k).
Proof.
  assert (H : process path ct kw (fst (process path ct kw self))
              = process path ct kw self).
  { destruct (parse_file_or_url path kw) as [e|els] eqn:H1.
    - now rewrite !(process_parse_error _ _ _ _ _ H1).
    - destruct (chunk_elements ct els) as [e|cs] eqn:H2.
      + now rewrite !(process_chunk_error _ _ _ _ _ _ H1 H2).
      + destruct (BM25.new (map tokenize_chunk cs)) as [e|m] eqn:H3.
        * now rewrite !(process_index_error _ _ _ _ _ _ _ H1 H2 H3).
        * now rewrite !(process_index_ok _ _ _ _ _ _ _ H1 H2 H3). }
  simpl. rewrite H. repeat split.
Qed.

(** C10: every dictionary of a successful [query] has exactly the keys
    ['similarity score'], ['content path'], ['metadata'] and ['text'], and
    its ['content path'] is the path given to the latest [process]. *)
Theorem query_result_keys self0 path ct kw q top_k res :
  query (fst (process path ct kw self0)) q top_k = ok res ->
  Forall (fun d =>
            dict_keys d
            = ["similarity score"; "content path"; "metadata"; "text"] /\
            dict_get d "content path" = Some (PyStr path)) res.
Proof.
  intros H. apply query_ok_inv in H.
  destruct H as (m & p & _ & _ & _ & _ & ->).
  apply Forall_map, Forall_forall. intros i _. simpl.
  rewrite process_content_input_path. split; reflexivity.
Qed.

End Claims.

(** ** The reference selection meets the contract of [np.argpartition] *)

Module SelectFacts.

Import Numpy.

Lemma upd_length {A} (l : list A) i x : List.length (upd l i x) = List.length l.
Proof.
  revert i. induction l as [|h t IH]; intros [|i]; simpl; auto.
Qed.

Lemma nth_upd_eq {A} (l : list A) i x d :
  (i < List.length l)%nat -> nth i (upd l i x) d = x.
Proof.
  revert i. induction l as [|h t IH]; intros [|i] H; simpl in *;
    try lia; auto. apply IH. lia.
Qed.

Lemma nth_upd_neq {A} (l : list A) i j x d :
  j <> i -> nth j (upd l i x) d = nth j l d.
Proof.
  revert i j. induction l as [|h t IH]; intros [|i] [|j] H; simpl;
    try reflexivity; try congruence. apply IH. congruence.
Qed.

Lemma upd_perm {A} (l : list A) i x d :
  (i < List.length l)%nat ->
  Permutation (x :: l) (nth i l d :: upd l i x).
Proof.
  revert i. induction l as [|h t IH]; intros [|i] H; simpl in *; try lia.
  - apply perm_swap.
  - rewrite perm_swap. rewrite (IH i) by lia. apply perm_swap.
Qed.

Lemma swap_length l i j : List.length (swap l i j) = List.length l.
Proof. unfold swap. now rewrite !upd_length. Qed.

Lemma swap_perm l i j :
  (i < List.length l)%nat -> (j < List.length l)%nat ->
  Permutation (swap l i j) l.
Proof.
  intros Hi Hj. unfold swap.
  set (a := nth i l O). set (b := nth j l O).
  assert (H1 : Permutation (b :: l) (a :: upd l i b))
    by (apply upd_perm; assumption).
  assert (H2 : Permutation (a :: upd l i b)
                           (nth j (upd l i b) O :: upd (upd l i b) j a)).
  { apply upd_perm. now rewrite upd_length. }
  assert (E : nth j (upd l i b) O = b).
  { destruct (Nat.eq_dec j i) as [->|Hn].
    - now apply nth_upd_eq.
    - now rewrite nth_upd_neq. }
  rewrite E in H2. symmetry.
  eapply Permutation_cons_inv. etransitivity; eassumption.
Qed.

Lemma nth_swap l i j k :
  (i < List.length l)%nat -> (j < List.length l)%nat ->
  nth k (swap l i j) O
  = if Nat.eqb k j then nth i l O
    else if Nat.eqb k i then nth j l O else nth k l O.
Proof.
  intros Hi Hj. unfold swap.
  destruct (Nat.eqb_spec k j) as [->|Hkj].
  - apply nth_upd_eq. now rewrite upd_length.
  - rewrite nth_upd_neq by assumption.
    destruct (Nat.eqb_spec k i) as [->|Hki].
    + now apply nth_upd_eq.
    + now apply nth_upd_neq.
Qed.

Section Rounds.

Variable v : list R.

Local Abbreviation val := (Numpy.val v).
Local Abbreviation rounds_inv := (Numpy.rounds_inv v).

Lemma scan_min_spec p ks minidx :
  let m := scan_min v p ks minidx (val p minidx) in
  (m = minidx \/ In m ks) /\
  (val p m <= val p minidx)%R /\
  (forall k, In k ks -> (val p m <= val p k)%R).
Proof.
  revert minidx. induction ks as [|k ks IH]; intros minidx; simpl.
  - repeat split; [now left|lra|tauto].
  - fold (val p k).
    destruct (Rlt_dec (val p k) (val p minidx)) as [Hlt|Hge].
    + destruct (IH k) as (Hm & Hle & Hall). repeat split.
      * destruct Hm as [->|Hm]; right; [now left|now right].
      * lra.
      * intros k' [<-|Hk']; [assumption|now apply Hall].
    + destruct (IH minidx) as (Hm & Hle & Hall). repeat split.
      * destruct Hm as [Hm|Hm]; [now left|right; now right].
      * assumption.
      * intros k' [<-|Hk']; [lra|now apply Hall].
Qed.

Lemma select_round_inv n r p :
  (r < n)%nat -> rounds_inv n r p -> rounds_inv n (r + 1) (select_round v p r).
Proof.
  intros Hr (Hlen & Hperm & Hord). unfold select_round.
  fold (val p r). rewrite Hlen.
  destruct (scan_min_spec p (seq (r + 1) (n - (r + 1))) r) as (Hm & Hle & Hall).
  set (m := scan_min v p (seq (r + 1) (n - (r + 1))) r (val p r)) in *.
  assert (Hmr : (r <= m < n)%nat).
  { destruct Hm as [->|Hm]; [lia|]. apply in_seq in Hm. lia. }
  assert (Hmin : forall k, (r <= k < n)%nat -> (val p m <= val p k)%R).
  { intros k Hk. destruct (Nat.eq_dec k r) as [->|Hn]; [assumption|].
    apply Hall. apply in_seq. lia. }
  assert (Hval : forall k, val (swap p r m) k
                 = if Nat.eqb k m then val p r
                   else if Nat.eqb k r then val p m else val p k).
  { intros k. unfold val. rewrite nth_swap by lia.
    destruct (Nat.eqb k m); [reflexivity|]. now destruct (Nat.eqb k r). }
  repeat split.
  - now rewrite swap_length.
  - rewrite swap_perm by lia. assumption.
  - intros a b Ha Hab Hb. rewrite !Hval.
    destruct (Nat.eqb_spec a m) as [Eam|Ham];
      destruct (Nat.eqb_spec b m) as [Ebm|Hbm];
      destruct (Nat.eqb_spec a r) as [Ear|Har];
      destruct (Nat.eqb_spec b r) as [Ebr|Hbr];
      try lra; try lia;
      try (apply Hmin; lia);
      try (apply Hord; lia).
    replace (val p r) with (val p m) by (f_equal; lia). apply Hmin. lia.
Qed.

Lemma dumb_select_rounds n r p :
  (r <= n)%nat -> rounds_inv n 0 p ->
  rounds_inv n r (fold_left (select_round v) (seq 0 r) p).
Proof.
  intros Hr H0. induction r as [|r IH].
  - exact H0.
  - rewrite seq_S, fold_left_app. simpl.
    replace (S r) with (r + 1)%nat by lia.
    apply select_round_inv; [lia|]. apply IH. lia.
Qed.

Lemma dumb_select_spec kth :
  (kth < List.length v)%nat ->
  let p := dumb_select v (seq 0 (List.length v)) kth in
  Permutation p (seq 0 (List.length v)) /\ partitioned v p kth.
Proof.
  intros Hk. simpl.
  destruct (dumb_select_rounds (List.length v) (kth + 1)
                               (seq 0 (List.length v))) as (Hlen & Hperm & Hord).
  - lia.
  - split; [apply length_seq|split; [reflexivity|intros a b Ha; lia]].
  - split; [exact Hperm|].
    intros i Hi. fold (dumb_select v (seq 0 (List.length v)) kth) in *.
    rewrite Hlen in Hi.
    split; intros H; apply Hord; lia.
Qed.

End Rounds.

End SelectFacts.

Lemma introselect_type (a : list R) (kth : Z) :
  (kth < Numpy.intp_min)%Z ->
  Numpy.kth_in_bounds kth (List.length a) = false ->
  Numpy.introselect a kth = raise (TypeError Numpy.partition_index_msg).
Proof.
  intros Hk Hb. unfold Numpy.introselect. rewrite Hb.
  now destruct (Z.ltb_spec kth Numpy.intp_min); [|lia].
Qed.

Lemma introselect_empty (kth : Z) :
  Numpy.fits_intp kth = true -> Numpy.introselect [] kth = ok [].
Proof.
  intros Hf. unfold Numpy.introselect.
  rewrite kth_in_bounds_empty.
  unfold Numpy.fits_intp in Hf. apply andb_true_iff in Hf.
  destruct Hf as [Hf _]. apply Z.leb_le in Hf.
  now destruct (Z.ltb_spec kth Numpy.intp_min); [lia|].
Qed.

Lemma introselect_bounds (a : list R) (kth : Z) :
  a <> [] -> Numpy.kth_in_bounds kth (List.length a) = false ->
  Numpy.fits_intp kth = true ->
  Numpy.introselect a kth
  = raise (ValueError (Numpy.kth_msg kth (List.length a))).
Proof.
  intros Ha Hb Hf. destruct a as [|x a]; [congruence|].
  unfold Numpy.introselect. rewrite Hb.
  unfold Numpy.fits_intp in Hf. apply andb_true_iff in Hf.
  destruct Hf as [Hf _]. apply Z.leb_le in Hf.
  now destruct (Z.ltb_spec kth Numpy.intp_min); [lia|].
Qed.

Lemma introselect_ok (a : list R) (kth : Z) :
  a <> [] -> Numpy.kth_in_bounds kth (List.length a) = true ->
  exists p, Numpy.introselect a kth = ok p /\
            Permutation p (seq 0 (List.length a)) /\
            Numpy.partitioned a p
              (Z.to_nat (Numpy.normalize_kth kth (List.length a))).
Proof.
  intros Ha Hb.
  unfold Numpy.introselect. rewrite Hb. eexists. split; [reflexivity|].
  apply SelectFacts.dumb_select_spec.
  unfold Numpy.kth_in_bounds in Hb. apply andb_true_iff in Hb.
  destruct Hb as [H1 H2]. apply Z.leb_le in H1. apply Z.ltb_lt in H2. lia.
Qed.

(** [introselect] as an implementation of [np.argpartition]. *)
#[export] Instance introselect_argpartition : Numpy.Argpartition := {|
  Numpy.argpartition := Numpy.introselect;
  Numpy.argpartition_type := introselect_type;
  Numpy.argpartition_empty := introselect_empty;
  Numpy.argpartition_bounds := introselect_bounds;
  Numpy.argpartition_ok := introselect_ok
|}.

(** ** Runs on concrete inputs *)

Section Runs.

Import Example.

Local Open Scope R_scope.

Ltac decide_Rlt :=
  repeat match goal with
  | |- context [Rlt_dec ?x ?y] =>
      destruct (Rlt_dec x y); [try (exfalso; lra)|try (exfalso; lra)]
  end.

Lemma idf_one_of_three_pos : 0 < idf_one_of_three.
Proof.
  unfold idf_one_of_three.
  assert (ln (1 + 0.5) < ln (2 + 0.5)) by (apply ln_increasing; lra).
  lra.
Qed.

(** The index of [twins.txt]: [cat] is in two chunks out of three, its idf
    is negative and is replaced by [epsilon * average_idf]. *)
Lemma twins_new : BM25.new (map tokenize_chunk twins) = ok twins_index.
Proof.
  pose proof idf_one_of_three_pos as Hpos. unfold idf_one_of_three in Hpos.
  unfold BM25.new, BM25._initialize.
  cbn -[Rlt_dec ln Rplus Rminus Rmult Rdiv Rinv Ropp IZR INR BM25._calc_idf].
  unfold BM25._calc_idf.
  cbn -[Rlt_dec ln Rplus Rminus Rmult Rdiv Rinv Ropp IZR INR BM25.math_log].
  replace (INR 2) with 2 by (simpl; lra).
  replace (INR 1) with 1 by (simpl; lra).
  rewrite !BM25Facts.math_log_pos by lra.
  cbn -[Rlt_dec ln Rplus Rminus Rmult Rdiv Rinv Ropp IZR INR].
  decide_Rlt. reflexivity.
Qed.

Lemma twins_process (self : BM25Retriever) :
  process "twins.txt" "chunk_by_title" tt self
  = (mkRetriever (Some twins_index) "twins.txt" twins, ok tt).
Proof.
  apply (process_index_ok (io:=Example.io) _ _ _ _ (twins : @Elements Example.io));
    [reflexivity|reflexivity|].
  apply twins_new.
Qed.

Lemma twins_scores :
  BM25.get_scores twins_index (tokenize_query "cat")
  = [twins_score (0.25 * twins_average_idf) 1 2;
     twins_score (0.25 * twins_average_idf) 1 2;
     twins_score (0.25 * twins_average_idf) 0 1].
Proof. reflexivity. Qed.

Lemma twins_score_order :
  twins_score (0.25 * twins_average_idf) 0 1
  < twins_score (0.25 * twins_average_idf) 1 2.
Proof.
  pose proof idf_one_of_three_pos as Hpos.
  assert (Hw : 0 < 0.25 * twins_average_idf).
  { unfold twins_average_idf. fold idf_one_of_three.
    replace (ln (1 + 0.5) - ln (2 + 0.5)) with (- idf_one_of_three)
      by (unfold idf_one_of_three; lra).
    replace (INR 4) with 4 by (simpl; lra). lra. }
  unfold twins_score. simpl INR.
  set (w := 0.25 * twins_average_idf) in *. lra.
Qed.

Lemma dumb_select_tie (s z : R) :
  z < s -> Numpy.dumb_select [s; s; z] [0; 1; 2]%nat 1 = [2; 1; 0]%nat.
Proof.
  intros Hz. unfold Numpy.dumb_select.
  repeat (cbn -[Rlt_dec]; decide_Rlt). reflexivity.
Qed.

(** Two equal scores above a third: the selection leaves the two leaders in
    the order 1, 0 and the stable sort keeps them so. *)
Lemma query_two_leaders (self : BM25Retriever) m c0 c1 c2 q (s z : R) :
  bm25 self = Some m -> chunks self = [c0; c1; c2] ->
  BM25.get_scores m (tokenize_query q) = [s; s; z] ->
  z < s ->
  query self q 2 = ok (map (entry self [s; s; z]) [1; 0]%nat).
Proof.
  intros Hm Hc Hs Hz.
  assert (Hp : Numpy.argpartition [s; s; z] (- (2)) = ok [2; 1; 0]%nat).
  { change (Numpy.argpartition [s; s; z] (- (2)))
      with (ok (A:=list nat) (Numpy.dumb_select [s; s; z] [0; 1; 2]%nat 1)).
    now rewrite dumb_select_tie. }
  rewrite (query_ok self q 2 m [2; 1; 0]%nat);
    rewrite ?Hs; try assumption; try lia.
  - f_equal. f_equal. unfold ranked.
    change (Numpy.slice_from (- (2)) [2; 1; 0]%nat) with [1; 0]%nat.
    unfold sort_reverse. cbn -[Rlt_dec]. decide_Rlt. reflexivity.
  - change (Numpy.slice_from (- (2)) [2; 1; 0]%nat) with [1; 0]%nat.
    repeat constructor; rewrite ?Hc; simpl; lia.
Qed.

(** C1, as stated, fails: on [twins.txt] the query [cat] with [top_k = 2]
    returns the two chunks that hold the word, with the same score, the
    second chunk before the first. *)
Lemma query_tie_not_by_document_id :
  let self := fst (process "twins.txt" "chunk_by_title" tt __init__) in
  exists s : R,
    query self "cat" 2
    = ok [[("similarity score", PyFloat s);
           ("content path", PyStr "twins.txt");
           ("metadata", PyDict []);
           ("text", PyStr "cat toy")];
          [("similarity score", PyFloat s);
           ("content path", PyStr "twins.txt");
           ("metadata", PyDict []);
           ("text", PyStr "cat nap")]].
Proof.
  simpl. rewrite twins_process. simpl.
  exists (twins_score (0.25 * twins_average_idf) 1 2).
  rewrite (query_two_leaders (mkRetriever (Some twins_index) "twins.txt" twins)
             twins_index
             (chunk_of "cat nap") (chunk_of "cat toy") (chunk_of "dog") "cat"
             _ _ eq_refl eq_refl twins_scores twins_score_order).
  reflexivity.
Qed.

End Runs.

Import Example.

(** C7, as stated, fails: a retriever that has indexed [pets.txt] and is
    then asked to process a path that does not load keeps its index and its
    chunks but not its content path, so its state is not the one before the
    failed call. *)
Lemma process_not_atomic :
  let before := fst (process "pets.txt" "chunk_by_title" tt __init__) in
  let failed := process "missing.txt" "chunk_by_title" tt before in
  bm25 before <> None /\
  snd failed = raise Example.load_error /\
  content_input_path before = "pets.txt" /\
  content_input_path (fst failed) = "missing.txt" /\
  fst failed <> before.
Proof.
  destruct (process_loaded (io:=Example.io) __init__ "pets.txt"
              "chunk_by_title" tt Example.pets Example.pets)
    as (m & Hp & _); [reflexivity|reflexivity|discriminate|].
  cbv zeta. rewrite Hp. cbn [fst].
  rewrite (process_parse_error (io:=Example.io) _ "missing.txt" _ _
             Example.load_error eq_refl).
  cbn [fst snd bm25 chunks content_input_path].
  repeat split; try reflexivity; discriminate.
Qed.

(** ** The results above at concrete inputs *)

Lemma query_top_k_sorted_witness :
  exists res,
    query (fst (process "pets.txt" "chunk_by_title" tt __init__)) "cat" 2
    = ok res /\
    List.length res = 2%nat /\
    descending similarity_score res.
Proof.
  destruct (query_top_k_sorted (io:=Example.io) __init__ "pets.txt"
              "chunk_by_title" tt Example.pets Example.pets "cat" 2)
    as (m & idx & p & _ & _ & Hq & Hl & _ & _ & Hd & _);
    [reflexivity|reflexivity|discriminate|simpl; lia|].
  eexists. split; [exact Hq|]. split; [exact Hl|exact Hd].
Defined.

Lemma query_top_k_exceeds_corpus_witness :
  query (fst (process "pets.txt" "chunk_by_title" tt __init__)) "cat" 5
  = raise (ValueError "kth(=-2) out of bounds (3)") /\
  query (fst (process "pets.txt" "chunk_by_title" tt __init__)) "cat"
        9223372036854775809
  = raise (TypeError "Partition index must be integer").
Proof.
  split.
  - apply (query_top_k_exceeds_corpus (io:=Example.io) __init__ "pets.txt"
             "chunk_by_title" tt Example.pets Example.pets "cat" 5);
      [reflexivity|reflexivity|discriminate|simpl; lia].
  - apply (query_top_k_exceeds_corpus (io:=Example.io) __init__ "pets.txt"
             "chunk_by_title" tt Example.pets Example.pets "cat"
             9223372036854775809);
      [reflexivity|reflexivity|discriminate|simpl; lia].
Defined.

Lemma process_empty_corpus_witness :
  process "empty.txt" "chunk_by_title" tt __init__
  = (mkRetriever None "empty.txt" [],
     raise (ZeroDivisionError "division by zero")) /\
  query (fst (process "empty.txt" "chunk_by_title" tt __init__)) "cat" 1
  = raise (ValueError not_initialized_msg).
Proof.
  apply (process_empty_corpus (io:=Example.io) __init__ "empty.txt"
           "chunk_by_title" tt ([] : @Elements Example.io) "cat");
    reflexivity.
Defined.

Lemma query_before_process_witness :
  query __init__ "cat" 1 = raise (ValueError not_initialized_msg).
Proof. apply (query_before_process "cat" 1). lia. Defined.

Lemma query_no_matching_term_witness :
  (exists res,
     query (fst (process "pets.txt" "chunk_by_title" tt __init__)) "bird" 3
     = ok res /\
     List.length res = 3%nat /\
     Forall (fun d => dict_get d "similarity score" = Some (PyFloat 0)) res) /\
  query (fst (process "pets.txt" "chunk_by_title" tt __init__)) "bird" 5
  = raise (ValueError "kth(=-2) out of bounds (3)").
Proof.
  assert (Hno : forall t c, In t (tokenize_query "bird") -> In c Example.pets ->
                            ~ In t (tokenize_chunk c)).
  { intros t c [<-|[]] [<-|[<-|[<-|[]]]] H; simpl in H;
      repeat (destruct H as [H|H]; [discriminate|]); exact H. }
  split.
  - destruct (query_no_matching_term (io:=Example.io) __init__ "pets.txt"
                "chunk_by_title" tt Example.pets Example.pets "bird" 3
                eq_refl eq_refl ltac:(discriminate) Hno) as [Hin _].
    destruct Hin as (res & idx & Hq & _ & Hl & Hz & _); [simpl; lia|].
    exists res. split; [exact Hq|]. split; [exact Hl|exact Hz].
  - destruct (query_no_matching_term (io:=Example.io) __init__ "pets.txt"
                "chunk_by_title" tt Example.pets Example.pets "bird" 5
                eq_refl eq_refl ltac:(discriminate) Hno) as [_ Hout].
    apply Hout. simpl. lia.
Defined.

Lemma process_loader_failure_witness :
  let self := mkRetriever (Some Example.twins_index) "twins.txt" Example.twins in
  snd (process "missing.txt" "chunk_by_title" tt self)
  = raise Example.load_error /\
  bm25 (fst (process "missing.txt" "chunk_by_title" tt self)) = bm25 self /\
  chunks (fst (process "missing.txt" "chunk_by_title" tt self)) = chunks self /\
  content_input_path (fst (process "missing.txt" "chunk_by_title" tt self))
  = "missing.txt".
Proof.
  apply (process_loader_failure (io:=Example.io)). left. reflexivity.
Defined.

Lemma query_result_keys_witness :
  exists res,
    query (fst (process "pets.txt" "chunk_by_title" tt __init__)) "cat" 2
    = ok res /\
    Forall (fun d =>
              dict_keys d
              = ["similarity score"; "content path"; "metadata"; "text"] /\
              dict_get d "content path" = Some (PyStr "pets.txt")) res.
Proof.
  destruct (query_after_process (io:=Example.io) __init__ "pets.txt"
              "chunk_by_title" tt Example.pets Example.pets "cat" 2)
    as (m & idx & Hp & _ & _ & _ & Hq & _);
    [reflexivity|reflexivity|discriminate|simpl; lia|].
  rewrite <- Hp in Hq. eexists. split; [exact Hq|].
  exact (query_result_keys (io:=Example.io) __init__ "pets.txt"
           "chunk_by_title" tt "cat" 2 _ Hq).
Defined.

(** * Further properties *)

(** ** More on [str.split(" ")] *)

Lemma split_space_free (t : string) :
  contains_char " " t = false -> split t = [t].
Proof.
  induction t as [|c t IH]; simpl; [reflexivity|].
  destruct (Ascii.eqb c " "); simpl; [discriminate|].
  intros H. now rewrite (IH H).
Qed.

(** X1: the tokens of two texts put together with one space between them
    are the tokens of the first followed by the tokens of the second. *)
Theorem split_app (a b : string) :
  split (a ++ String " " b) = (split a ++ split b)%list.
Proof.
  induction a as [|c a IH]; simpl.
  - reflexivity.
  - destruct (Ascii.eqb c " "); rewrite IH; [reflexivity|].
    destruct (split a) as [|t ts] eqn:E; [|reflexivity].
    now destruct (split_nonempty a).
Qed.

(** X2: splitting undoes joining: a non-empty list of tokens, none of which
    contains a space, is what [split] gives back for their join. *)
Theorem split_join (l : list string) :
  l <> [] ->
  Forall (fun t => contains_char " " t = false) l ->
  split (join l) = l.
Proof.
  intros Hne Hall. induction Hall as [|t l Ht Hl IH]; [congruence|].
  destruct l as [|t' l].
  - simpl. now apply split_space_free.
  - change (join (t :: t' :: l)) with (t ++ String " " (join (t' :: l))).
    rewrite split_app, IH by discriminate.
    now rewrite (split_space_free t Ht).
Qed.

Lemma split_join_witness :
  split (join ["the"; "cat"; EmptyString; "sat"])
  = ["the"; "cat"; EmptyString; "sat"].
Proof.
  apply (split_join ["the"; "cat"; EmptyString; "sat"]).
  - discriminate.
  - repeat constructor.
Defined.

(** ** More on [process] *)

Section ProcessMore.

Context {io : UnstructuredIO}.

(** X3: [process] returns normally exactly when the loader returns at
    least one chunk; a loader error and an empty chunk list both make it
    raise. *)
Theorem process_succeeds_iff self path ct kw :
  snd (process path ct kw self) = ok tt <->
  exists els cs, parse_file_or_url path kw = ok els /\
                 chunk_elements ct els = ok cs /\ cs <> [].
Proof.
  split.
  - destruct (parse_file_or_url path kw) as [e|els] eqn:H1.
    { rewrite (process_parse_error _ _ _ _ _ H1). discriminate. }
    destruct (chunk_elements ct els) as [e|cs] eqn:H2.
    { rewrite (process_chunk_error _ _ _ _ _ _ H1 H2). discriminate. }
    destruct cs as [|c cs].
    { rewrite (process_index_error _ _ _ _ _ _ _ H1 H2 BM25Facts.new_empty).
      discriminate. }
    intros _. exists els, (c :: cs). repeat split; try assumption.
    discriminate.
  - intros (els & cs & H1 & H2 & Hne).
    destruct (process_loaded self path ct kw els cs H1 H2 Hne) as (m & -> & _).
    reflexivity.
Qed.

(** X4: a [process] that loads a non-empty list of chunks replaces the
    whole state, whatever it was: the path and the chunks are the new ones,
    and the new index has one document per chunk, whose length is the number
    of tokens of the chunk, and gives one score per chunk to every query. *)
Theorem process_replaces_state path ct kw els cs :
  parse_file_or_url path kw = ok els ->
  chunk_elements ct els = ok cs ->
  cs <> [] ->
  exists m,
    (forall self,
       process path ct kw self = (mkRetriever (Some m) path cs, ok tt)) /\
    BM25.corpus_size m = List.length cs /\
    BM25.doc_len m = map (fun c => List.length (tokenize_chunk c)) cs /\
    (forall q, List.length (BM25.get_scores m (tokenize_query q))
               = List.length cs).
Proof.
  intros H1 H2 Hne.
  destruct (BM25Facts.new_ok (map tokenize_chunk cs)) as (m & Hm & Hs & Hf & Hl).
  - destruct cs; [congruence|discriminate].
  - apply Forall_map, Forall_forall. intros c _. apply split_nonempty.
  - rewrite length_map in Hs. exists m. repeat split.
    + intros self. now apply (process_index_ok _ _ _ _ els).
    + exact Hs.
    + now rewrite Hl, map_map.
    + intros q. rewrite ScoreFacts.get_scores_length; [exact Hs|].
      split; [now rewrite Hf, !length_map|now rewrite Hl, !length_map].
Qed.

(** X5: no call of [process] removes an index: once [bm25] is set, it is
    set after every later call, returning or raising. *)
Theorem process_keeps_index self path ct kw :
  bm25 self <> None -> bm25 (fst (process path ct kw self)) <> None.
Proof.
  intros H.
  destruct (parse_file_or_url path kw) as [e|els] eqn:H1.
  { now rewrite (process_parse_error _ _ _ _ _ H1). }
  destruct (chunk_elements ct els) as [e|cs] eqn:H2.
  { now rewrite (process_chunk_error _ _ _ _ _ _ H1 H2). }
  destruct (BM25.new (map tokenize_chunk cs)) as [e|m] eqn:H3.
  - now rewrite (process_index_error _ _ _ _ _ _ _ H1 H2 H3).
  - rewrite (process_index_ok _ _ _ _ _ _ _ H1 H2 H3). discriminate.
Qed.

(** X6: in every state a retriever reaches from [__init__] by calls of
    [process], returning or raising: without an index there are no chunks,
    and an index was built from a non-empty list of chunks, which [chunks]
    still holds unless a later call has emptied it. *)
Theorem reachable_consistent self : reachable self -> consistent self.
Proof.
  induction 1 as [|self path ct kw _ IH].
  - reflexivity.
  - destruct (parse_file_or_url path kw) as [e|els] eqn:H1.
    { rewrite (process_parse_error _ _ _ _ _ H1). exact IH. }
    destruct (chunk_elements ct els) as [e|cs] eqn:H2.
    { rewrite (process_chunk_error _ _ _ _ _ _ H1 H2). exact IH. }
    destruct cs as [|c cs].
    + rewrite (process_index_error _ _ _ _ _ _ _ H1 H2 BM25Facts.new_empty).
      unfold consistent in *. simpl.
      destruct (bm25 self) as [m|]; [|reflexivity].
      destruct IH as (cs0 & Hne & Hm & _). exists cs0. auto.
    + destruct (process_loaded self path ct kw els (c :: cs) H1 H2)
        as (m & -> & Hm & _); [discriminate|].
      unfold consistent. simpl. exists (c :: cs).
      repeat split; [discriminate|exact Hm|now left].
Qed.

End ProcessMore.

(** ** More on scores *)

Module ScoreMore.

Import BM25.


Lemma vec_add_zero_r u :
  vec_add u (repeat 0%R (List.length u)) = u.
Proof.
  unfold vec_add. induction u as [|x u IH]; simpl; [reflexivity|].
  rewrite IH. f_equal. lra.
Qed.



(** One more term that no document holds leaves the scores as they are. *)
Lemma get_scores_unknown_term m query t :
  well_shaped m ->
  Forall (fun doc => dict_get doc t = None) (doc_freqs m) ->
  get_scores m (query ++ [t]) = get_scores m query.
Proof.
  intros Hw Ht. unfold get_scores. rewrite fold_left_app. simpl.
  fold (get_scores m query).
  rewrite (ScoreFacts.term_scores_absent _ _ Hw Ht).
  replace (repeat 0%R (corpus_size m))
    with (repeat 0%R (List.length (get_scores m query)))
    by (now rewrite ScoreFacts.get_scores_length).
  apply vec_add_zero_r.
Qed.

(** What an index built from the chunks [cs] looks like. *)
Lemma built_index cs m :
  cs <> [] -> new (map tokenize_chunk cs) = ok m ->
  corpus_size m = List.length cs /\
  well_shaped m /\
  doc_freqs m = map word_frequencies (map tokenize_chunk cs).
Proof.
  intros Hne Hm.
  destruct (BM25Facts.new_ok (map tokenize_chunk cs)) as (m' & Hm' & Hs & Hf & Hl).
  - destruct cs; [congruence|discriminate].
  - apply Forall_map, Forall_forall. intros c _. apply split_nonempty.
  - rewrite Hm in Hm'. injection Hm' as <-. rewrite length_map in Hs.
    repeat split; try assumption.
    + now rewrite Hf, !length_map.
    + now rewrite Hl, !length_map.
Qed.

End ScoreMore.

(** ** More on [query] *)

Section QueryMore.

Context {io : UnstructuredIO} {np : Numpy.Argpartition}.

(** [query] on a state whose index was built from its chunks. *)
Lemma query_on_index self m cs q top_k :
  bm25 self = Some m -> chunks self = cs -> cs <> [] ->
  BM25.new (map tokenize_chunk cs) = ok m ->
  (1 <= top_k <= Z.of_nat (List.length cs))%Z ->
  let scores := BM25.get_scores m (tokenize_query q) in
  exists idx,
    query self q top_k = ok (map (entry self scores) idx) /\
    List.length idx = Z.to_nat top_k /\
    NoDup idx /\
    Forall (fun i => (i < List.length cs)%nat) idx /\
    descending (fun i => nth i scores 0%R) idx /\
    (forall i j, In i idx -> (j < List.length cs)%nat -> ~ In j idx ->
                 (nth j scores 0 <= nth i scores 0)%R).
Proof.
  intros Hb Hc Hne Hm Hk scores.
  destruct (ScoreMore.built_index cs m Hne Hm) as (Hs & Hw & _).
  assert (Hlen : List.length scores = List.length cs).
  { unfold scores. now rewrite ScoreFacts.get_scores_length. }
  destruct (select_top_k scores top_k) as (p & Hap & Hl & Hnd & Hr & Htop).
  { now rewrite Hlen. }
  rewrite Hlen in Hr, Htop.
  assert (Hperm : Permutation (ranked scores top_k p)
                              (Numpy.slice_from (- top_k) p))
    by apply sort_reverse_perm.
  exists (ranked scores top_k p). split; [|repeat split].
  - apply (query_ok self q top_k m p); [lia|exact Hb|exact Hap|].
    fold scores. eapply Forall_impl; [|exact Hr].
    intros i Hi. split; [now rewrite Hlen|now rewrite Hc].
  - now rewrite (Permutation_length Hperm).
  - eapply Permutation_NoDup; [symmetry; exact Hperm|assumption].
  - eapply Permutation_Forall; [symmetry; exact Hperm|assumption].
  - apply sort_reverse_sorted.
  - intros i j Hi Hj Hnj. apply Htop; try assumption.
    + now apply (Permutation_in _ Hperm).
    + intros Hin. apply Hnj.
      now apply (Permutation_in _ (Permutation_sym Hperm)).
Qed.

(** X7: in a state a retriever can reach, [query] returns a result exactly
    when there is an index, [top_k] is between 1 and the number of indexed
    documents, and the chunks are not empty; in every other case it
    raises. *)
Theorem query_succeeds_iff self q top_k :
  reachable self ->
  (exists res, query self q top_k = ok res) <->
  (exists m, bm25 self = Some m /\
             (1 <= top_k <= Z.of_nat (BM25.corpus_size m))%Z /\
             chunks self <> []).
Proof.
  intros Hreach. apply reachable_consistent in Hreach.
  unfold consistent in Hreach. split.
  - intros [res Hq]. apply query_ok_inv in Hq.
    destruct Hq as (m & p & Hk & Hb & Hp & Hr & _).
    rewrite Hb in Hreach. destruct Hreach as (cs & Hne & Hm & _).
    destruct (ScoreMore.built_index cs m Hne Hm) as (Hs & Hw & _).
    set (scores := BM25.get_scores m (tokenize_query q)) in *.
    assert (Hlen : List.length scores = BM25.corpus_size m).
    { unfold scores. now rewrite ScoreFacts.get_scores_length. }
    assert (Hle : (top_k <= Z.of_nat (BM25.corpus_size m))%Z).
    { destruct (Z.le_gt_cases top_k (Z.of_nat (BM25.corpus_size m)))
        as [|Hgt]; [assumption|]. exfalso.
      rewrite argpartition_exceeds in Hp; [discriminate| |].
      - destruct scores; [|discriminate].
        destruct cs; [congruence|simpl in *; lia].
      - rewrite Hlen. lia. }
    exists m. repeat split; try assumption; try lia.
    destruct (select_top_k scores top_k) as (p' & Hp' & Hl & _).
    { rewrite Hlen. lia. }
    rewrite Hp in Hp'. injection Hp' as <-.
    destruct (Numpy.slice_from (- top_k) p) as [|i idx];
      [simpl in Hl; lia|].
    inversion Hr as [|? ? [_ Hi] _]; subst.
    intros E. rewrite E in Hi. simpl in Hi. lia.
  - intros (m & Hb & Hk & Hne). rewrite Hb in Hreach.
    destruct Hreach as (cs & Hcs & Hm & [Hc|Hc]); [|contradiction].
    destruct (ScoreMore.built_index cs m Hcs Hm) as (Hs & _).
    destruct (query_on_index self m cs q top_k Hb Hc Hcs Hm)
      as (idx & Hq & _); [lia|]. eauto.
Qed.

(** X8: asked for as many results as there are chunks, [query] returns
    every chunk exactly once. *)
Theorem query_all_chunks self0 path ct kw els cs q :
  parse_file_or_url path kw = ok els ->
  chunk_elements ct els = ok cs ->
  cs <> [] ->
  let self := fst (process path ct kw self0) in
  exists m idx,
    bm25 self = Some m /\
    query self q (Z.of_nat (List.length cs))
    = ok (map (entry self (BM25.get_scores m (tokenize_query q))) idx) /\
    Permutation idx (seq 0 (List.length cs)).
Proof.
  intros H1 H2 Hne.
  destruct (process_loaded self0 path ct kw els cs H1 H2 Hne)
    as (m & Hp & Hm & _).
  rewrite Hp. simpl.
  destruct (query_on_index (mkRetriever (Some m) path cs) m cs q
              (Z.of_nat (List.length cs)) eq_refl eq_refl Hne Hm)
    as (idx & Hq & Hl & Hnd & Hr & _).
  { destruct cs; [congruence|simpl; lia]. }
  exists m, idx. repeat split; [exact Hq|].
  apply NoDup_Permutation_bis; [assumption|rewrite length_seq; lia|].
  intros i Hi. apply in_seq. rewrite Forall_forall in Hr.
  specialize (Hr i Hi). lia.
Qed.

(** X9: with the default [top_k], [query] returns one result, and it is a
    chunk that no other chunk outscores. *)
Theorem query_default_best self0 path ct kw els cs q :
  parse_file_or_url path kw = ok els ->
  chunk_elements ct els = ok cs ->
  cs <> [] ->
  let self := fst (process path ct kw self0) in
  exists m i,
    bm25 self = Some m /\
    let scores := BM25.get_scores m (tokenize_query q) in
    query self q DEFAULT_TOP_K_RESULTS = ok [entry self scores i] /\
    (i < List.length cs)%nat /\
    (forall j, (j < List.length cs)%nat ->
               (nth j scores 0 <= nth i scores 0)%R).
Proof.
  intros H1 H2 Hne.
  destruct (process_loaded self0 path ct kw els cs H1 H2 Hne)
    as (m & Hp & Hm & _).
  rewrite Hp. simpl.
  destruct (query_on_index (mkRetriever (Some m) path cs) m cs q
              DEFAULT_TOP_K_RESULTS eq_refl eq_refl Hne Hm)
    as (idx & Hq & Hl & _ & Hr & _ & Htop).
  { unfold DEFAULT_TOP_K_RESULTS. destruct cs; [congruence|simpl; lia]. }
  destruct idx as [|i [|i' idx]]; try discriminate Hl.
  exists m, i. repeat split; [exact Hq|now inversion Hr|].
  intros j Hj. destruct (Nat.eq_dec j i) as [->|Hn]; [lra|].
  apply Htop; [now left|assumption|].
  intros [E|[]]. congruence.
Qed.

(** X10: whatever the state, the results of a [query] that returns are at
    most [top_k], come from pairwise distinct positions that are valid for
    both the scores and the chunks, each pairing the score, the metadata and
    the text of one position, and are in non-increasing order of score. *)
Theorem query_results_sound self q top_k res :
  query self q top_k = ok res ->
  exists m idx,
    bm25 self = Some m /\
    let scores := BM25.get_scores m (tokenize_query q) in
    res = map (entry self scores) idx /\
    (Z.of_nat (List.length res) <= top_k)%Z /\
    NoDup idx /\
    Forall (in_range self scores) idx /\
    descending similarity_score res.
Proof.
  intros Hq. apply query_ok_inv in Hq.
  destruct Hq as (m & p & Hk & Hb & Hp & Hr & ->).
  set (scores := BM25.get_scores m (tokenize_query q)) in *.
  assert (Hperm : Permutation (ranked scores top_k p)
                              (Numpy.slice_from (- top_k) p))
    by apply sort_reverse_perm.
  assert (Hnd : NoDup p /\ (List.length (Numpy.slice_from (- top_k) p)
                            <= Z.to_nat top_k)%nat).
  { destruct scores as [|x scores'] eqn:E.
    - destruct (Z.lt_ge_cases (- top_k) Numpy.intp_min) as [Hlt|Hge].
      + rewrite (Numpy.argpartition_type [] _ Hlt (kth_in_bounds_empty _))
          in Hp. discriminate.
      + rewrite Numpy.argpartition_empty in Hp.
        * injection Hp as <-. split; [apply NoDup_nil|].
          unfold Numpy.slice_from. rewrite length_skipn. simpl. lia.
        * unfold Numpy.fits_intp, Numpy.intp_max. apply andb_true_iff.
          split; apply Z.leb_le; lia.
    - destruct (Numpy.kth_in_bounds (- top_k) (List.length (x :: scores')))
        eqn:B.
      + destruct (Numpy.argpartition_ok (x :: scores') (- top_k))
          as (p' & Hp' & Hpp & _); [discriminate|exact B|].
        rewrite Hp in Hp'. injection Hp' as <-. split.
        * eapply Permutation_NoDup; [symmetry; exact Hpp|apply seq_NoDup].
        * unfold Numpy.slice_from. rewrite length_skipn.
          destruct (Z.ltb_spec (- top_k) 0); lia.
      + destruct (Numpy.argpartition (x :: scores') (- top_k)) as [e|p0]
          eqn:Hq0; [discriminate|].
        exfalso.
        destruct (Z.lt_ge_cases (- top_k) Numpy.intp_min) as [Hlt|Hge].
        * rewrite (Numpy.argpartition_type _ _ Hlt B) in Hq0. discriminate.
        * rewrite Numpy.argpartition_bounds in Hq0;
            [discriminate|discriminate|exact B|].
          unfold Numpy.fits_intp, Numpy.intp_max. apply andb_true_iff.
          split; apply Z.leb_le; lia. }
  destruct Hnd as [Hnd Hlen].
  exists m, (ranked scores top_k p). repeat split.
  - exact Hb.
  - rewrite length_map, (Permutation_length Hperm). lia.
  - eapply Permutation_NoDup; [symmetry; exact Hperm|].
    unfold Numpy.slice_from.
    match goal with |- NoDup (skipn ?k p) =>
      rewrite <- (firstn_skipn k p) in Hnd end.
    eapply NoDup_app_remove_l. exact Hnd.
  - eapply Permutation_Forall; [symmetry; exact Hperm|exact Hr].
  - apply descending_map. apply sort_reverse_sorted.
Qed.

(** X11: when a retriever that has an index processes content that gives
    no chunk, it keeps the index and loses the chunks, and every [query]
    that the index would answer then raises [IndexError]. *)
Theorem query_stale_index self0 m cs0 path ct kw els q top_k :
  bm25 self0 = Some m ->
  cs0 <> [] ->
  BM25.new (map tokenize_chunk cs0) = ok m ->
  parse_file_or_url path kw = ok els ->
  chunk_elements ct els = ok [] ->
  (1 <= top_k <= Z.of_nat (List.length cs0))%Z ->
  fst (process path ct kw self0) = mkRetriever (Some m) path [] /\
  query (fst (process path ct kw self0)) q top_k
  = raise (IndexError "list index out of range").
Proof.
  intros Hb Hne Hm H1 H2 Hk.
  rewrite (process_index_error _ _ _ _ _ _ _ H1 H2 BM25Facts.new_empty).
  simpl. rewrite Hb. split; [reflexivity|].
  destruct (ScoreMore.built_index cs0 m Hne Hm) as (Hs & Hw & _).
  set (scores := BM25.get_scores m (tokenize_query q)).
  assert (Hlen : List.length scores = List.length cs0).
  { unfold scores. now rewrite ScoreFacts.get_scores_length. }
  destruct (select_top_k scores top_k) as (p & Hp & Hl & _ & Hr & _).
  { now rewrite Hlen. }
  unfold query. destruct (Z.leb_spec top_k 0) as [|_]; [lia|]. simpl.
  fold scores. rewrite Hp. simpl.
  destruct (Numpy.slice_from (- top_k) p) as [|i idx]; [simpl in Hl; lia|].
  inversion Hr as [|? ? Hi _]; subst. simpl.
  unfold result_dict, Numpy.getitem, list_getitem. simpl.
  destruct (nth_error scores i) eqn:E; [|apply nth_error_None in E; lia].
  simpl. now destruct i.
Qed.


(** X13: a further word at the end of the query that occurs in no chunk
    changes neither the scores nor the answer. *)
Theorem query_unknown_word self0 path ct kw els cs q t top_k :
  parse_file_or_url path kw = ok els ->
  chunk_elements ct els = ok cs ->
  cs <> [] ->
  contains_char " " t = false ->
  (forall c, In c cs -> ~ In t (tokenize_chunk c)) ->
  query (fst (process path ct kw self0)) (q ++ String " " t) top_k
  = query (fst (process path ct kw self0)) q top_k.
Proof.
  intros H1 H2 Hne Ht Hno.
  destruct (process_loaded self0 path ct kw els cs H1 H2 Hne)
    as (m & Hp & _ & _ & Hw & Hf).
  rewrite Hp. simpl.
  assert (Hsc : BM25.get_scores m (tokenize_query (q ++ String " " t))
                = BM25.get_scores m (tokenize_query q)).
  { unfold tokenize_query. rewrite split_app, (split_space_free t Ht).
    apply ScoreMore.get_scores_unknown_term; [assumption|].
    rewrite Hf. apply Forall_map, Forall_map, Forall_forall. intros c Hc.
    apply BM25Facts.word_frequencies_absent. now apply Hno. }
  unfold query. simpl. now rewrite Hsc.
Qed.

End QueryMore.

(** ** The further properties at concrete inputs *)

Lemma process_replaces_state_witness :
  exists m,
    (forall self,
       process "pets.txt" "chunk_by_title" tt self
       = (mkRetriever (Some m) "pets.txt" Example.pets, ok tt)) /\
    BM25.corpus_size m = 3%nat /\
    BM25.doc_len m = [3; 3; 3]%nat.
Proof.
  destruct (process_replaces_state (io:=Example.io) "pets.txt"
              "chunk_by_title" tt Example.pets Example.pets)
    as (m & Hp & Hs & Hl & _); [reflexivity|reflexivity|discriminate|].
  exists m. split; [exact Hp|]. split; [exact Hs|exact Hl].
Defined.

Lemma process_keeps_index_witness :
  bm25 (fst (process "missing.txt" "chunk_by_title" tt
               (mkRetriever (Some Example.twins_index) "twins.txt"
                            Example.twins)))
  <> None.
Proof.
  apply (process_keeps_index (io:=Example.io)). discriminate.
Defined.

Lemma reachable_consistent_witness :
  consistent
    (fst (process "empty.txt" "chunk_by_title" tt
            (fst (process "pets.txt" "chunk_by_title" tt __init__)))).
Proof.
  apply (reachable_consistent (io:=Example.io)).
  apply reachable_process. apply reachable_process. apply reachable_init.
Defined.

Lemma query_succeeds_iff_witness :
  let self := fst (process "pets.txt" "chunk_by_title" tt __init__) in
  (exists res, query self "cat" 2 = ok res) <->
  (exists m, bm25 self = Some m /\
             (1 <= 2 <= Z.of_nat (BM25.corpus_size m))%Z /\
             chunks self <> []).
Proof.
  apply (query_succeeds_iff (io:=Example.io)).
  apply reachable_process. apply reachable_init.
Defined.

Lemma query_all_chunks_witness :
  let self := fst (process "pets.txt" "chunk_by_title" tt __init__) in
  exists m idx,
    bm25 self = Some m /\
    query self "cat" 3
    = ok (map (entry self (BM25.get_scores m (tokenize_query "cat"))) idx) /\
    Permutation idx [0; 1; 2]%nat.
Proof.
  apply (query_all_chunks (io:=Example.io) __init__ "pets.txt"
           "chunk_by_title" tt Example.pets Example.pets "cat");
    [reflexivity|reflexivity|discriminate].
Defined.

Lemma query_default_best_witness :
  let self := fst (process "pets.txt" "chunk_by_title" tt __init__) in
  exists m i,
    bm25 self = Some m /\
    let scores := BM25.get_scores m (tokenize_query "cat") in
    query self "cat" 1 = ok [entry self scores i] /\
    (i < 3)%nat /\
    (forall j, (j < 3)%nat -> (nth j scores 0 <= nth i scores 0)%R).
Proof.
  apply (query_default_best (io:=Example.io) __init__ "pets.txt"
           "chunk_by_title" tt Example.pets Example.pets "cat");
    [reflexivity|reflexivity|discriminate].
Defined.

Lemma query_results_sound_witness :
  let self := fst (process "pets.txt" "chunk_by_title" tt __init__) in
  exists res m idx,
    query self "cat" 2 = ok res /\
    bm25 self = Some m /\
    res = map (entry self (BM25.get_scores m (tokenize_query "cat"))) idx /\
    (Z.of_nat (List.length res) <= 2)%Z /\
    NoDup idx /\
    descending similarity_score res.
Proof.
  destruct (query_after_process (io:=Example.io) __init__ "pets.txt"
              "chunk_by_title" tt Example.pets Example.pets "cat" 2)
    as (m0 & idx0 & Hp & _ & _ & _ & Hq & _);
    [reflexivity|reflexivity|discriminate|simpl; lia|].
  rewrite <- Hp in Hq. cbv zeta.
  destruct (query_results_sound _ _ _ _ Hq)
    as (m & idx & Hb & Hres & Hlen & Hnd & _ & Hd).
  eexists. exists m, idx. split; [exact Hq|].
  split; [exact Hb|]. split; [exact Hres|].
  split; [exact Hlen|]. split; [exact Hnd|exact Hd].
Defined.

Lemma query_stale_index_witness :
  let self0 := mkRetriever (Some Example.twins_index) "twins.txt"
                           Example.twins in
  fst (process "empty.txt" "chunk_by_title" tt self0)
  = mkRetriever (Some Example.twins_index) "empty.txt" [] /\
  query (fst (process "empty.txt" "chunk_by_title" tt self0)) "cat" 2
  = raise (IndexError "list index out of range").
Proof.
  apply (query_stale_index (io:=Example.io) _ Example.twins_index
           Example.twins "empty.txt" "chunk_by_title" tt
           ([] : @Elements Example.io) "cat" 2).
  - reflexivity.
  - discriminate.
  - apply twins_new.
  - reflexivity.
  - reflexivity.
  - simpl. lia.
Defined.


Lemma query_unknown_word_witness :
  query (fst (process "pets.txt" "chunk_by_title" tt __init__))
        "cat bird" 2
  = query (fst (process "pets.txt" "chunk_by_title" tt __init__)) "cat" 2.
Proof.
  apply (query_unknown_word (io:=Example.io) __init__ "pets.txt"
           "chunk_by_title" tt Example.pets Example.pets "cat" "bird" 2);
    [reflexivity|reflexivity|discriminate|reflexivity|].
  intros c [<-|[<-|[<-|[]]]] H; simpl in H;
    repeat (destruct H as [H|H]; [discriminate|]); exact H.
Defined.

(** ** [query] after a [process] that failed to load *)

Lemma sort_reverse_ext {A} (key1 key2 : A -> R) (l : list A) :
  (forall x, key1 x = key2 x) ->
  sort_reverse key1 l = sort_reverse key2 l.
Proof.
  intros H. induction l as [|x l IH]; simpl; [reflexivity|].
  rewrite IH. generalize (sort_reverse key2 l) as s.
  induction s as [|y s IHs]; simpl; [reflexivity|].
  rewrite !H. destruct (Rlt_dec (key2 x) (key2 y)); [|reflexivity].
  now rewrite IHs.
Qed.

Lemma similarity_score_with_content_path path d :
  similarity_score (with_content_path path d) = similarity_score d.
Proof.
  unfold similarity_score, with_content_path.
  rewrite dict_get_set_neq; [reflexivity|discriminate].
Qed.

Section QueryRelabel.

Context {io : UnstructuredIO} {np : Numpy.Argpartition}.

Lemma result_dict_relabel self path scores i :
  result_dict (mkRetriever (bm25 self) path (chunks self)) scores i
  = match result_dict self scores i with
    | inl e => inl e
    | inr d => inr (with_content_path path d)
    end.
Proof.
  unfold result_dict, Numpy.getitem, list_getitem. simpl.
  destruct (nth_error scores i); simpl; [|reflexivity].
  destruct (nth_error (chunks self) i); reflexivity.
Qed.

Lemma result_loop_relabel self path scores l acc :
  for_each (fun acc i =>
              d <-? result_dict (mkRetriever (bm25 self) path (chunks self))
                                scores i ;;
              ok (acc ++ [d])%list)
           l (map (with_content_path path) acc)
  = relabel path
      (for_each (fun acc i =>
                   d <-? result_dict self scores i ;; ok (acc ++ [d])%list)
                l acc).
Proof.
  revert acc. induction l as [|i l IH]; intros acc; simpl.
  - reflexivity.
  - rewrite result_dict_relabel.
    destruct (result_dict self scores i) as [e|d]; simpl; [reflexivity|].
    rewrite <- IH. now rewrite map_app.
Qed.

(** The path stored in the retriever only shows in the ['content path'] of
    the results. *)
Lemma query_relabel self path q top_k :
  query (mkRetriever (bm25 self) path (chunks self)) q top_k
  = relabel path (query self q top_k).
Proof.
  destruct self as [b path0 cs]. unfold query.
  destruct (Z.leb top_k 0); [reflexivity|].
  cbn [bm25 chunks content_input_path].
  destruct b as [m|]; [|reflexivity].
  destruct (Numpy.argpartition _ _) as [e|p]; [reflexivity|].
  cbn [rbind].
  pose proof (result_loop_relabel (mkRetriever (Some m) path0 cs) path
                (BM25.get_scores m (tokenize_query q))
                (Numpy.slice_from (- top_k) p) []) as H.
  cbn [bm25 chunks content_input_path map] in H. rewrite H. clear H.
  destruct (for_each _ _ _) as [e|res]; [reflexivity|].
  cbn [relabel rbind]. unfold ok, relabel.
  rewrite sort_reverse_map. do 2 f_equal.
  apply sort_reverse_ext. apply similarity_score_with_content_path.
Qed.

(** X14: after a [process] in which the loader raised, [query] answers
    from the chunks and the index of before, with the same scores, texts and
    metadata in the same order, or raises the same error, but every result
    carries the path of the failed call as its ['content path']. *)
Theorem query_after_failed_load self path ct kw e q top_k :
  parse_file_or_url path kw = inl e \/
  (exists els, parse_file_or_url path kw = ok els /\
               chunk_elements ct els = inl e) ->
  query (fst (process path ct kw self)) q top_k
  = relabel path (query self q top_k).
Proof.
  intros [H|(els & H1 & H2)].
  - rewrite (process_parse_error _ _ _ _ _ H). apply query_relabel.
  - rewrite (process_chunk_error _ _ _ _ _ _ H1 H2). apply query_relabel.
Qed.

End QueryRelabel.

Lemma query_after_failed_load_witness :
  let self := fst (process "pets.txt" "chunk_by_title" tt __init__) in
  query (fst (process "missing.txt" "chunk_by_title" tt self)) "cat" 2
  = relabel "missing.txt" (query self "cat" 2).
Proof.
  apply (query_after_failed_load (io:=Example.io) _ "missing.txt"
           "chunk_by_title" tt Example.load_error "cat" 2).
  left. reflexivity.
Defined.
